(** * node_cassandra: the client library lib/cassandra.js

    A shallow embedding of the Cassandra client for node.js: the readiness
    gated command queues of [Client] and [ColumnFamily], the argument
    normalisers [parseArgumentsForStandardCF_] and
    [parseArgumentsForSuperCF_], the translation of get / count / set /
    remove into Thrift calls, and the paginating [enumerate].

    The Thrift connection is asynchronous.  A method of the library is
    modelled by the part that runs when it is called (it returns the new
    state of its object and the trace of what it did: remote calls issued,
    events emitted, user callbacks invoked) and, separately, by the function
    that runs when the reply of the remote call arrives. *)

From Stdlib Require Import ZArith List String Ascii Bool Lia DecimalString Arith.
From Equations Require Import Equations.
From Equations.Prop Require Import Logic.
Import ListNotations.
Open Scope string_scope.
Open Scope Z_scope.

Set Warnings "-register-all".

(** ** JavaScript values *)

Module JS.

(** The values that travel through the library as data.  A number is an
    integer: the embedding is that of JavaScript on the safe integers, of a
    magnitude below 2^53, where the arithmetic of doubles is exact and the
    string coercion writes the decimal digits ([safe_integer],
    [printable]); fractions, NaN and the infinities are not among the
    values.  An object is given by its enumerable properties, in the order
    [for ... in] visits them: first its own ones, then the ones it inherits
    through its prototype chain.  An object literal inherits none.  The
    members of Object.prototype, none of them enumerable, are found under
    their names on every object ([index]); such a member is [JNative].
    Apart from these a property never holds a function: functions only
    occur as arguments of a call, see [arg]. *)
Inductive data : Type :=
| JUndefined
| JNull
| JBool (b : bool)
| JNum (n : Z)
| JStr (s : string)
| JArr (elements : list data)
| JObj (own : list (string * data)) (inherited : list (string * data))
| JError (message : string)
| JNative (name : string).

Definition props : Type := list (string * data).

(** A function value, named by its source text (which is what the string
    coercion of a function yields). *)
Definition fn : Type := string.

(** An argument of a call: data or a function. *)
Inductive arg : Type :=
| Data (d : data)
| Func (f : fn).

(** An object literal. *)
Definition literal (own : props) : data := JObj own [].

(** Truthiness, as tested by [if (x)], [x || y] and [x ? a : b]. *)
Definition truthy (v : data) : bool :=
  match v with
  | JUndefined | JNull => false
  | JBool b => b
  | JNum n => negb (n =? 0)
  | JStr s => negb (s =? "")%string
  | JArr _ | JObj _ _ | JError _ | JNative _ => true
  end.

Definition arg_truthy (a : arg) : bool :=
  match a with
  | Data d => truthy d
  | Func _ => true
  end.

(** [x || y] *)
Definition or_else (x y : data) : data := if truthy x then x else y.

Definition arg_or (x y : arg) : arg := if arg_truthy x then x else y.

(** Lookup in a property list: the first entry under the name. *)
Fixpoint lookup {A : Type} (p : list (string * A)) (name : string) : option A :=
  match p with
  | [] => None
  | (k, v) :: rest => if (k =? name)%string then Some v else lookup rest name
  end.

Definition has {A : Type} (p : list (string * A)) (name : string) : bool :=
  match lookup p name with
  | Some _ => true
  | None => false
  end.

(** [o[name] = v] on a property list, for a name other than [__proto__]
    (see [put]): an existing property keeps its place, a new one goes to
    the end. *)
Fixpoint assign {A : Type} (p : list (string * A)) (name : string) (v : A)
  : list (string * A) :=
  match p with
  | [] => [(name, v)]
  | (k, w) :: rest =>
      if (k =? name)%string then (k, v) :: rest
      else (k, w) :: assign rest name v
  end.

(** [x.name] for a value [x] that is neither undefined nor null.  Only the
    option names the library reads are looked up this way (read, write,
    consistencyLevel, stride, ttl, start, finish, reversed and count; never
    [length], an index or the name of a member of Object.prototype), so a
    string, an array, a number, a boolean and an error answer undefined. *)
Definition get (x : data) (name : string) : data :=
  match x with
  | JObj own inherited =>
      match lookup own name with
      | Some v => v
      | None =>
          match lookup inherited name with
          | Some v => v
          | None => JUndefined
          end
      end
  | _ => JUndefined
  end.

(** The members of Object.prototype in V8, the engine of node.js. *)
Definition Object_prototype : list string :=
  ["constructor"; "toString"; "toLocaleString"; "valueOf"; "hasOwnProperty";
   "isPrototypeOf"; "propertyIsEnumerable"; "__defineGetter__";
   "__lookupGetter__"; "__defineSetter__"; "__lookupSetter__"; "__proto__"].

Definition member (name : string) : bool :=
  existsb (String.eqb name) Object_prototype.

(** [o[name]] for a computed name, on an object [o] that started as the
    literal [{}] and has the own properties [own]: its own property, else
    the member of Object.prototype of that name, else undefined. *)
Definition index (own : props) (name : string) : data :=
  match lookup own name with
  | Some v => v
  | None => if member name then JNative name else JUndefined
  end.

(** [o[name] = v] for a value [v] that is no object (the library stores
    strings this way) on an object that started as a literal: [__proto__]
    is no name of a property, and the assignment of such a value under it
    does nothing. *)
Definition put (o : props) (name : string) (v : data) : props :=
  if (name =? "__proto__")%string then o else assign o name v.

(** [x.hasOwnProperty(name)], for the names [for ... in] yields on [x]. *)
Definition hasOwnProperty (x : data) (name : string) : bool :=
  match x with
  | JObj own _ => has own name
  | JArr _ | JStr _ => true
  | _ => false
  end.

Definition index_name (i : nat) : string :=
  NilZero.string_of_uint (Nat.to_uint i).

Fixpoint indexed {A : Type} (i : nat) (l : list A) : list (string * A) :=
  match l with
  | [] => []
  | x :: rest => (index_name i, x) :: indexed (S i) rest
  end.

Fixpoint characters (s : string) : list data :=
  match s with
  | EmptyString => []
  | String c rest => JStr (String c EmptyString) :: characters rest
  end.

(** The inherited properties that an own property of the same name does not
    hide. *)
Definition visible_inherited (own inherited : props) : props :=
  filter (fun kv => negb (has own (fst kv))) inherited.

(** [for (name in x)], each name paired with [x[name]]: the enumerable
    properties, own and inherited; the indices of an array or of a string;
    nothing for any other value (undefined and null included). *)
Definition for_in (x : data) : props :=
  match x with
  | JObj own inherited => (own ++ visible_inherited own inherited)%list
  | JArr l => indexed 0 l
  | JStr s => indexed 0 (characters s)
  | _ => []
  end.

(** [for (name in x) if (x.hasOwnProperty(name))] *)
Definition for_own (x : data) : props :=
  filter (fun kv => hasOwnProperty x (fst kv)) (for_in x).

Definition decimal (n : Z) : string := NilZero.string_of_int (Z.to_int n).

Fixpoint join (sep : string) (l : list string) : string :=
  match l with
  | [] => ""
  | [s] => s
  | s :: rest => s ++ sep ++ join sep rest
  end.

(** The integers below 2^53 in magnitude: a double holds each of them
    exactly, and JavaScript writes each with all its digits. *)
Definition safe_integer (n : Z) : bool := Z.abs n <? 2 ^ 53.

(** The string coercion [String(x)], which is what ['' + x] yields: for a
    number the decimal digits, which is what JavaScript writes for a safe
    integer.  The text of a native function is the one V8 gives. *)
Fixpoint to_string (x : data) : string :=
  match x with
  | JUndefined => "undefined"
  | JNull => "null"
  | JBool true => "true"
  | JBool false => "false"
  | JNum n => decimal n
  | JStr s => s
  | JArr l =>
      join ","
        (map (fun e =>
                match e with
                | JUndefined | JNull => ""
                | _ => to_string e
                end) l)
  | JObj _ _ => "[object Object]"
  | JError m => if (m =? "")%string then "Error" else "Error: " ++ m
  | JNative m =>
      if (m =? "__proto__")%string then "[object Object]"
      else
        "function " ++ (if (m =? "constructor")%string then "Object" else m)
        ++ "() { [native code] }"
  end.


Definition arg_get (a : arg) (name : string) : data :=
  match a with
  | Data d => get d name
  | Func _ => JUndefined
  end.

Definition arg_for_in (a : arg) : props :=
  match a with
  | Data d => for_in d
  | Func _ => []
  end.

Definition arg_for_own (a : arg) : props :=
  match a with
  | Data d => for_own d
  | Func _ => []
  end.

Definition arg_to_string (a : arg) : string :=
  match a with
  | Data d => to_string d
  | Func f => f
  end.

(** The number a string is read as.  The plain decimal integers are
    covered; a string in another notation that JavaScript reads as a number
    (with blanks, a plus sign, a fraction, an exponent such as 1e1, or a
    radix prefix) is outside the embedding, which reads it as NaN. *)
Definition string_to_number (s : string) : option Z :=
  if (s =? "")%string then Some 0
  else option_map Z.of_int (NilZero.int_of_string s).

(** The number a value coerces to in [x - 1] and [x > n]; [None] is NaN.  An
    array, an object and an error are read through their strings. *)
Definition to_number (x : data) : option Z :=
  match x with
  | JUndefined => None
  | JNull => Some 0
  | JBool b => Some (if b then 1 else 0)
  | JNum n => Some n
  | JStr s => string_to_number s
  | JArr _ | JObj _ _ | JError _ | JNative _ =>
      string_to_number (to_string x)
  end.

(** [Array.prototype.shift]: the first element (undefined when there is
    none) and the rest. *)
Definition shift (args : list arg) : arg * list arg :=
  match args with
  | [] => (Data JUndefined, [])
  | a :: rest => (a, rest)
  end.

(** [typeof x === 'object'] *)
Definition typeof_object (a : arg) : bool :=
  match a with
  | Data (JNull | JArr _ | JObj _ _ | JError _) => true
  | Data (JNative m) => (m =? "__proto__")%string
  | _ => false
  end.

End JS.

(** ** The generated Thrift interface *)

Module Thrift.
Import JS.

(** The constants of [ttypes.ConsistencyLevel] the library names.  The
    generated module gen-nodejs/cassandra_types is not among the sources, so
    the development is parametric in the numbers behind the two names. *)
Class ConsistencyLevel : Type := {
  ONE : Z;
  QUORUM : Z
}.

(** Modelled from the spec: the wire-schema structures of
    gen-nodejs/cassandra_types, which is not among the sources.  Each record
    has the fields the library writes or reads. *)
Record Column : Type := {
  name : string;
  value : string;
  timestamp : Z;
  ttl : data
}.

Record SuperColumn : Type := {
  sc_name : string;
  columns : list Column
}.

Record ColumnOrSuperColumn : Type := {
  column : option Column;
  super_column : option SuperColumn
}.

Record ColumnParent : Type := {
  column_family : string;
  cp_super_column : option string
}.

Record SliceRange : Type := {
  start : data;
  finish : data;
  reversed : data;
  count : data
}.

Record SlicePredicate : Type := {
  column_names : option (list data);
  slice_range : option SliceRange
}.

Record Deletion : Type := {
  del_timestamp : Z;
  del_super_column : option string;
  predicate : option SlicePredicate
}.

Record Mutation : Type := {
  column_or_supercolumn : option ColumnOrSuperColumn;
  deletion : option Deletion
}.

Record KeyRange : Type := {
  start_key : string;
  end_key : string;
  kr_count : data
}.

Record KeySlice : Type := {
  key : string;
  ks_columns : list ColumnOrSuperColumn
}.

Record CfDef : Type := {
  cf_name : string;
  column_type : string
}.

(** Modelled from the spec: a field that the argument of a generated
    constructor (gen-nodejs/cassandra_types, not among the sources) leaves
    undefined or null keeps its default. *)
Definition field_or (options : props) (name : string) (dflt : data) : data :=
  match get (literal options) name with
  | JUndefined | JNull => dflt
  | v => v
  end.

(** Modelled from the spec: [new ttypes.SliceRange(options)], the
    constructor of gen-nodejs/cassandra_types, which is not among the
    sources.  It makes the range defined by start, finish, reversed and
    count of the options (spec 4.4); a field the options leave undefined or
    null keeps the default of the Thrift interface, which is unset for
    start and finish, false for reversed and 100 for count. *)
Definition new_SliceRange (options : props) : SliceRange :=
  {| start := field_or options "start" JNull;
     finish := field_or options "finish" JNull;
     reversed := field_or options "reversed" (JBool false);
     count := field_or options "count" (JNum 100) |}.

(** What a remote call answers: [callback(error)] or
    [callback(null, result)].  The error is an exception object or a
    message, truthy either way. *)
Inductive reply (A : Type) : Type :=
| Failure (error : string)
| Success (result : A).

Arguments Failure {A} error.
Arguments Success {A} result.

End Thrift.

(** ** What the library does to the outside *)

Module Trace.
Import JS Thrift.

(** The calls on [thrift_client].  A call that is given one of the
    library's own closures as callback carries what the closure has
    captured ([keys] and the user's [callback] for the two multiget calls);
    the others carry the callback argument as it was passed. *)
Inductive remote : Type :=
| login (credential : arg)
| describe_keyspace (keyspace : arg)
| set_keyspace (keyspace : arg)
| system_add_keyspace (ksdef callback : arg)
| system_drop_keyspace (keyspace callback : arg)
| multiget_slice (keys : list arg) (column_parent : ColumnParent)
    (predicate : SlicePredicate) (cl : data) (callback : option fn)
| multiget_count (keys : list arg) (column_parent : ColumnParent)
    (predicate : SlicePredicate) (cl : data) (callback : option fn)
| batch_mutate (mutation_map : list (string * list (string * list Mutation)))
    (cl : data) (callback : option fn)
| get_range_slices (column_parent : ColumnParent)
    (predicate : SlicePredicate) (range : KeyRange) (cl : data)
| truncate (column_family : string) (callback : arg).

Inductive event : Type :=
| Remote (call : remote)
| Emit_error (message : string)
| Emit_keyspaceSet (column_families_ : option (list (string * CfDef)))
| Invoke (f : fn) (args : list data).

Inductive exn : Type :=
| TypeError
| Unhandled (error : string).

(** The result of running a piece of the library: the state it leaves, the
    trace of what it did, and the exception it ended with, if any. *)
Record effect (S : Type) : Type := {
  after : S;
  trace : list event;
  thrown : option exn
}.

Arguments after {S} _.
Arguments trace {S} _.
Arguments thrown {S} _.

Definition ret {S : Type} (s : S) : effect S :=
  {| after := s; trace := []; thrown := None |}.

Definition out {S : Type} (s : S) (t : list event) : effect S :=
  {| after := s; trace := t; thrown := None |}.

Definition throw {S : Type} (s : S) (e : exn) : effect S :=
  {| after := s; trace := []; thrown := Some e |}.

(** Sequencing: the second piece runs on the state the first one left,
    unless the first one threw. *)
Definition seq {S : Type} (m : effect S) (k : S -> effect S) : effect S :=
  match thrown m with
  | Some e => m
  | None =>
      let r := k (after m) in
      {| after := after r;
         trace := (trace m ++ trace r)%list;
         thrown := thrown r |}
  end.

(** [client.emit('error', error)]: an ['error'] event nobody listens to is
    thrown by the emitter. *)
Definition emit_error {S : Type} (listening : bool) (s : S) (error : string)
  : effect S :=
  if listening then out s [Emit_error error]
  else throw s (Unhandled error).

(** Sequencing when the two pieces leave different things: [dflt] is what
    is left when the first piece threw. *)
Definition bind {S T : Type} (m : effect S) (dflt : T) (k : S -> effect T)
  : effect T :=
  match thrown m with
  | Some e => {| after := dflt; trace := trace m; thrown := Some e |}
  | None =>
      let r := k (after m) in
      {| after := after r;
         trace := (trace m ++ trace r)%list;
         thrown := thrown r |}
  end.

(** Calling what may or may not be a function. *)
Definition apply_fn (callee : arg) (args : list data) : effect unit :=
  match callee with
  | Func f => out tt [Invoke f args]
  | Data _ => throw tt TypeError
  end.

Definition apply_callback (callback : option fn) (args : list data) : effect unit :=
  match callback with
  | Some f => out tt [Invoke f args]
  | None => throw tt TypeError
  end.

(** [if (typeof args[args.length - 1] === 'function') callback = args.pop()] *)
Definition pop_callback (args : list arg) : option fn * list arg :=
  match rev args with
  | Func f :: before => (Some f, rev before)
  | _ => (None, args)
  end.

End Trace.

(** ** Client: the session *)

Module Client.
Import JS Thrift Trace.

(** The methods that queue themselves ([arguments.callee]). *)
Inductive callee : Type :=
| m_use
| m_addKeySpace
| m_dropKeySpace.

Record CL : Type := {
  read : data;
  write : data
}.

(** The fields of a [Client] object.  The transport (host, port, connection,
    thrift_client) is outside the embedding; [error_listener] tells whether
    the application listens to the ['error'] events of this session;
    [columnFamilies] holds the names of the cached handles.  The constructor
    sets neither [ready] nor [queue]: until [connect] has run
    ([connected]) both are undefined, so that [ready] reads as false and
    there is no queue to push to. *)
Record t : Type := {
  defaultCL : CL;
  columnFamilies : list string;
  timestampMultiplier : data;
  keyspace : arg;
  connected : bool;
  ready : bool;
  queue : list (callee * list arg);
  column_families_ : option (list (string * CfDef));
  error_listener : bool
}.

Definition with_defaultCL (self : t) (cl : CL) : t :=
  {| defaultCL := cl;
     columnFamilies := columnFamilies self;
     timestampMultiplier := timestampMultiplier self;
     keyspace := keyspace self;
     connected := connected self;
     ready := ready self;
     queue := queue self;
     column_families_ := column_families_ self;
     error_listener := error_listener self |}.

Definition with_ready (self : t) (b : bool) : t :=
  {| defaultCL := defaultCL self;
     columnFamilies := columnFamilies self;
     timestampMultiplier := timestampMultiplier self;
     keyspace := keyspace self;
     connected := connected self;
     ready := b;
     queue := queue self;
     column_families_ := column_families_ self;
     error_listener := error_listener self |}.

Definition with_queue (self : t) (q : list (callee * list arg)) : t :=
  {| defaultCL := defaultCL self;
     columnFamilies := columnFamilies self;
     timestampMultiplier := timestampMultiplier self;
     keyspace := keyspace self;
     connected := connected self;
     ready := ready self;
     queue := q;
     column_families_ := column_families_ self;
     error_listener := error_listener self |}.

Definition with_keyspace (self : t) (k : arg) (handles : list string) : t :=
  {| defaultCL := defaultCL self;
     columnFamilies := handles;
     timestampMultiplier := timestampMultiplier self;
     keyspace := k;
     connected := connected self;
     ready := ready self;
     queue := queue self;
     column_families_ := column_families_ self;
     error_listener := error_listener self |}.

(** [this.ready = false; this.queue = []] in [connect]. *)
Definition opened (self : t) : t :=
  {| defaultCL := defaultCL self;
     columnFamilies := columnFamilies self;
     timestampMultiplier := timestampMultiplier self;
     keyspace := keyspace self;
     connected := true;
     ready := false;
     queue := [];
     column_families_ := column_families_ self;
     error_listener := error_listener self |}.

Definition with_column_families_ (self : t) (s : list (string * CfDef)) : t :=
  {| defaultCL := defaultCL self;
     columnFamilies := columnFamilies self;
     timestampMultiplier := timestampMultiplier self;
     keyspace := keyspace self;
     connected := connected self;
     ready := ready self;
     queue := queue self;
     column_families_ := Some s;
     error_listener := error_listener self |}.

Section WithLevels.
Context {levels : ConsistencyLevel}.

(** [new Client(host, timestampMultiplier)]: the session before
    [connect]. *)
Definition new (timestampMultiplier : data) (listening : bool) : t :=
  {| defaultCL := {| read := JNum QUORUM; write := JNum QUORUM |};
     columnFamilies := [];
     timestampMultiplier := timestampMultiplier;
     keyspace := Data JUndefined;
     connected := false;
     ready := false;
     queue := [];
     column_families_ := None;
     error_listener := listening |}.

(** [this.emit('error', error)] *)
Definition emit_error (self : t) (error : string) : effect t :=
  Trace.emit_error (error_listener self) self error.

(** [consistencyLevel(newCL)], the setter: one argument is given.  Reading a
    property of undefined or of null throws. *)
Definition consistencyLevel (self : t) (newCL : data) : effect t :=
  match newCL with
  | JUndefined | JNull => throw self TypeError
  | _ =>
      ret (with_defaultCL self
             {| read := JS.or_else (get newCL "read") (JNum QUORUM);
                write := JS.or_else (get newCL "write") (JNum QUORUM) |})
  end.

(** [this.queue.push([arguments.callee, args])]; before [connect] there is
    no queue, and the call of [push] throws. *)
Definition enqueue (self : t) (m : callee) (args : list arg) : effect t :=
  if connected self
  then ret (with_queue self (queue self ++ [(m, args)])%list)
  else throw self TypeError.

Definition use (self : t) (args : list arg) : effect t :=
  if negb (ready self) then enqueue self m_use args
  else
    let keyspace := fst (shift args) in
    out (with_keyspace self keyspace [])
        [Remote (describe_keyspace keyspace)].

Definition addKeySpace (self : t) (args : list arg) : effect t :=
  if negb (ready self) then enqueue self m_addKeySpace args
  else
    let '(ksdef, rest) := shift args in
    let callback := fst (shift rest) in
    out self [Remote (system_add_keyspace ksdef callback)].

Definition dropKeySpace (self : t) (args : list arg) : effect t :=
  if negb (ready self) then enqueue self m_dropKeySpace args
  else
    let '(keyspace, rest) := shift args in
    let callback := fst (shift rest) in
    out self [Remote (system_drop_keyspace keyspace callback)].

(** [next[0].apply(this, next[1])] *)
Definition apply (m : callee) (self : t) (args : list arg) : effect t :=
  match m with
  | m_use => use self args
  | m_addKeySpace => addKeySpace self args
  | m_dropKeySpace => dropKeySpace self args
  end.

(** What [dispatch] did after what the command it took off the queue
    did. *)
Definition and_then (r r' : effect t) : effect t :=
  {| after := after r';
     trace := (trace r ++ trace r')%list;
     thrown := thrown r' |}.

(** [dispatch]: while the session is ready and the queue is not empty, take
    the head off the queue, apply it, and dispatch again.  An exception of
    the applied method ends the pass.  The recursion is on the length of the
    queue, which a method applied to a ready session does not touch. *)
Equations? dispatch (self : t) : effect t
  by wf (List.length (queue self)) lt :=
dispatch self with inspect (ready self) := {
  | exist _ false Hr => ret self
  | exist _ true Hr with inspect (queue self) := {
      | exist _ [] Hq => ret self
      | exist _ ((m, args) :: rest) Hq
          with inspect (apply m (with_queue self rest) args) := {
          | exist _ r Hap with thrown r := {
              | Some e => r
              | None => and_then r (dispatch (after r)) } } } }.
Proof.
  rewrite Hq.
  destruct m; cbn; unfold use, addKeySpace, dropKeySpace; cbn; rewrite Hr; cbn;
    repeat match goal with |- context [shift ?a] => destruct (shift a) end;
    cbn; lia.
Defined.

(** [connect(keyspace_or_credential, credential)]: from now on the session
    has a readiness flag, which is false, and a queue, which is empty; a
    keyspace, when one is known, is selected by a call of [use], which
    queues itself.  The second component is the
    credential the ['connect'] handler has captured. *)
Definition connect (self : t) (args : list arg) : effect t * arg :=
  let '(keyspace_or_credential, rest) := shift args in
  let credential := fst (shift rest) in
  let named :=
    match keyspace_or_credential with
    | Data (JStr _) => true
    | _ => false
    end in
  let keyspace := if named then keyspace_or_credential else keyspace self in
  let credential := if named then credential else keyspace_or_credential in
  let self := opened (with_keyspace self keyspace (columnFamilies self)) in
  (if arg_truthy keyspace
   then use self [keyspace; Func "function(error) { if (error) { self.emit('error', error) } }"]
   else ret self,
   credential).

(** [self.ready = true; self.dispatch()] *)
Definition become_ready (self : t) : effect t :=
  dispatch (with_ready self true).

(** The ['connect'] handler that [connect] installs; [error] is the error
    the event carries, if any. *)
Definition on_connect (self : t) (error : option string) (credential : arg)
  : effect t :=
  match error with
  | Some e => emit_error self e
  | None =>
      if arg_truthy credential
      then out self [Remote (login credential)]
      else become_ready self
  end.

(** The callback of the login call. *)
Definition on_login (self : t) (answer : reply unit) : effect t :=
  match answer with
  | Failure e => emit_error self e
  | Success _ => become_ready self
  end.


End WithLevels.
End Client.

(** ** ColumnFamily: the table handle *)

Module ColumnFamily.
Import JS Thrift Trace.

(** The public methods, as the values [arguments.callee] takes in the
    queue.  [slice] is among them although it never queues itself. *)
Inductive callee : Type :=
| m_get
| m_count
| m_slice
| m_set
| m_remove
| m_enumerate
| m_truncate.

(** The fields of a handle.  Of the table definition, copied onto the handle
    when the schema arrives, [column_type] is kept ([None] before that). *)
Record t : Type := {
  name : string;
  queue : list (callee * list arg);
  ready : bool;
  timestampMultiplier : Z;
  column_type : option string;
  isSuper : bool
}.

Definition with_queue (self : t) (q : list (callee * list arg)) : t :=
  {| name := name self;
     queue := q;
     ready := ready self;
     timestampMultiplier := timestampMultiplier self;
     column_type := column_type self;
     isSuper := isSuper self |}.

(** The constructor, up to the subscription to ['keyspaceSet']:
    [timestampMultiplier || 1]. *)
Definition new (name : string) (timestampMultiplier : option Z) : t :=
  {| name := name;
     queue := [];
     ready := false;
     timestampMultiplier :=
       match timestampMultiplier with
       | Some m => if m =? 0 then 1 else m
       | None => 1
       end;
     column_type := None;
     isSuper := false |}.

Definition enqueue (self : t) (m : callee) (args : list arg) : effect t :=
  ret (with_queue self (queue self ++ [(m, args)])%list).

(** *** The argument normalisers *)

Definition default_options : props :=
  [("start", JStr ""); ("finish", JStr ""); ("reversed", JBool false);
   ("count", JNum 100); ("consistencyLevel", JNull)].

(** [for (option_name in x) if (x.hasOwnProperty(option_name))
       options[option_name] = x[option_name]] *)
Definition overlay (options : props) (x : arg) : props :=
  fold_left (fun o kv => assign o (fst kv) (snd kv)) (arg_for_own x) options.

(** [typeof x.slice === 'function'] holds of the arrays and of the strings;
    [x.slice()] copies an array and returns a string as it is, which is then
    wrapped into an array. *)
Definition sliced (x : arg) : option (list data) :=
  match x with
  | Data (JArr l) => Some l
  | Data (JStr s) => Some [JStr s]
  | _ => None
  end.

(** The part the two normalisers share: what follows from
    [columns_or_options], the argument after it being the head of [args]. *)
Definition columns_or_options_ (column_parent : ColumnParent)
    (columns_or_options : arg) (args : list arg)
  : ColumnParent * SlicePredicate * data :=
  if arg_truthy columns_or_options then
    match sliced columns_or_options with
    | Some columns =>
        let options :=
          arg_or (fst (shift args)) (Data (literal default_options)) in
        (column_parent,
         {| column_names := Some columns; slice_range := None |},
         arg_get options "consistencyLevel")
    | None =>
        let options := overlay default_options columns_or_options in
        (column_parent,
         {| column_names := None;
            slice_range := Some (new_SliceRange options) |},
         JS.get (literal options) "consistencyLevel")
    end
  else
    (column_parent,
     {| column_names := None;
        slice_range := Some (new_SliceRange default_options) |},
     JS.get (literal default_options) "consistencyLevel").

Definition parseArgumentsForStandardCF_ (self : t) (args : list arg)
  : ColumnParent * SlicePredicate * data :=
  let column_parent :=
    {| column_family := name self; cp_super_column := None |} in
  let '(columns_or_options, args) := shift args in
  columns_or_options_ column_parent columns_or_options args.

Definition parseArgumentsForSuperCF_ (self : t) (args : list arg)
  : ColumnParent * SlicePredicate * data :=
  let column_parent :=
    {| column_family := name self; cp_super_column := None |} in
  let '(super_column_or_options, args) := shift args in
  if arg_truthy super_column_or_options then
    match super_column_or_options with
    | Data (JStr super_column) =>
        let column_parent :=
          {| column_family := name self;
             cp_super_column := Some super_column |} in
        let '(columns_or_options, args) := shift args in
        columns_or_options_ column_parent columns_or_options args
    | _ =>
        let options := overlay default_options super_column_or_options in
        (column_parent,
         {| column_names := None;
            slice_range := Some (new_SliceRange options) |},
         JS.get (literal options) "consistencyLevel")
    end
  else
    (column_parent,
     {| column_names := None;
        slice_range := Some (new_SliceRange default_options) |},
     JS.get (literal default_options) "consistencyLevel").

Definition parseArguments (self : t) (args : list arg)
  : ColumnParent * SlicePredicate * data :=
  if isSuper self then parseArgumentsForSuperCF_ self args
  else parseArgumentsForStandardCF_ self args.

(** [if (!(keys instanceof Array)) keys = [keys]] *)
Definition key_list (keys : arg) : list arg :=
  match keys with
  | Data (JArr l) => map Data l
  | _ => [keys]
  end.

(** *** The replies of the two multiget calls *)

(** The inner loop of [get]: the subcolumns of a super column, from the last
    to the first, each stored under its name in an object that starts
    empty. *)
Definition flatten_columns (columns : list Column) : props :=
  fold_left (fun o c => put o (Thrift.name c) (JStr (value c)))
            (rev columns) [].

(** The loop over a row: [backwards] is the row from its last entry to its
    first, [own] and [inherited] are the properties of [obj[key]] so far.
    The object of a super column is stored under the name of the super
    column; under [__proto__] it is not stored but becomes the prototype of
    [obj[key]], which inherits its properties.  An entry that is neither a
    super column nor a column makes [col.name] throw. *)
Fixpoint flatten_entries (backwards : list ColumnOrSuperColumn)
    (own inherited : props) : option data :=
  match backwards with
  | [] => Some (JObj own inherited)
  | entry :: before =>
      match super_column entry with
      | Some col =>
          let columns := flatten_columns (columns col) in
          if (sc_name col =? "__proto__")%string
          then flatten_entries before own columns
          else
            flatten_entries before (assign own (sc_name col) (literal columns))
              inherited
      | None =>
          match column entry with
          | Some col =>
              flatten_entries before
                (put own (Thrift.name col) (JStr (value col))) inherited
          | None => None
          end
      end
  end.

Definition flatten_row (row : list ColumnOrSuperColumn) : option data :=
  flatten_entries (rev row) [] [].

(** The loop over the keys of [res], [obj] being the result so far.  The
    keys are those of the own properties of [res], none of which is
    [__proto__]. *)
Fixpoint flatten_rows (res : list (string * list ColumnOrSuperColumn))
    (obj : props) : option props :=
  match res with
  | [] => Some obj
  | (key, row) :: rest =>
      match flatten_row row with
      | Some o => flatten_rows rest (assign obj key o)
      | None => None
      end
  end.

(** [if (keys.length == 1) obj = obj[keys[0]]] *)
Definition unwrap (keys : list arg) (obj : props) : data :=
  match keys with
  | [key] => index obj (arg_to_string key)
  | _ => literal obj
  end.

(** The closure [get] gives to multiget_slice.  The enumerable own
    properties of [res] are the rows by key (an object has no own property
    named [__proto__], and no two of the same name); on an error [res] is
    undefined. *)
Definition on_multiget_slice (keys : list arg) (callback : option fn)
    (answer : reply (list (string * list ColumnOrSuperColumn)))
  : effect unit :=
  let error :=
    match answer with
    | Failure e => JError e
    | Success _ => JNull
    end in
  let res :=
    match answer with
    | Failure _ => []
    | Success res => res
    end in
  seq (if truthy error then apply_callback callback [error] else ret tt)
      (fun _ =>
         match flatten_rows res [] with
         | None => throw tt TypeError
         | Some obj => apply_callback callback [error; unwrap keys obj]
         end).

(** The closure [count] gives to multiget_count; [obj] is still undefined
    where the error branch reads it. *)
Definition on_multiget_count (keys : list arg) (callback : option fn)
    (answer : reply (list (string * Z))) : effect unit :=
  let error :=
    match answer with
    | Failure e => JError e
    | Success _ => JNull
    end in
  let res :=
    match answer with
    | Failure _ => []
    | Success res => res
    end in
  seq (if truthy error then apply_callback callback [error; JUndefined]
       else ret tt)
      (fun _ =>
         let obj :=
           fold_left (fun o kv => assign o (fst kv) (JNum (snd kv))) res [] in
         apply_callback callback [error; unwrap keys obj]).

(** *** The methods *)

(** What [enumerate] keeps for the callbacks of its range fetches. *)
Record scan : Type := {
  column_parent : ColumnParent;
  slice_predicate : SlicePredicate;
  stride : data;
  callback : arg;
  done : arg;
  errback : arg
}.

(** [function() {}] *)
Definition noop : arg := Func "function() {}".

Section Methods.
Context {levels : ConsistencyLevel}.

(** The session the handle belongs to ([this.client_]), as it is when the
    method runs, and the clock reading [new Date().getTime()].  The
    timestamp [ts] of a set or a remove is the product of the clock reading
    and the multiplier of the handle, both integers; it is the number
    JavaScript computes as long as it is a safe integer, beyond which the
    product of doubles is rounded.  The row key of a set or a remove names
    a property of the mutation map, which any string does but
    [__proto__]. *)
Variable client_ : Client.t.
Variable now : Z.

Definition get (self : t) (args : list arg) : effect t :=
  if negb (ready self) then enqueue self m_get args
  else
    let '(callback, args) := pop_callback args in
    let '(keys, args) := shift args in
    let keys := key_list keys in
    let '(column_parent, predicate, level) := parseArguments self args in
    let cl := JS.or_else level (Client.read (Client.defaultCL client_)) in
    out self [Remote (multiget_slice keys column_parent predicate cl callback)].

Definition count (self : t) (args : list arg) : effect t :=
  if negb (ready self) then enqueue self m_count args
  else
    let '(callback, args) := pop_callback args in
    let '(keys, args) := shift args in
    let keys := key_list keys in
    let '(column_parent, predicate, level) := parseArguments self args in
    let cl := JS.or_else level (Client.read (Client.defaultCL client_)) in
    out self [Remote (multiget_count keys column_parent predicate cl callback)].

Definition slice (self : t) (args : list arg) : effect t :=
  Trace.emit_error (Client.error_listener client_) self
    "slice(get_range_slices, get_indexed_slices) not supported.".

(** [new ttypes.Column({name, value: '' + v, timestamp: ts,
                        ttl: options.ttl || null})] *)
Definition new_Column (options : arg) (ts : Z) (kv : string * data) : Column :=
  {| Thrift.name := fst kv;
     value := to_string (snd kv);
     timestamp := ts;
     ttl := JS.or_else (arg_get options "ttl") JNull |}.

Definition column_mutation (c : Column) : Mutation :=
  {| column_or_supercolumn :=
       Some {| column := Some c; super_column := None |};
     deletion := None |}.

Definition super_column_mutation (sc : SuperColumn) : Mutation :=
  {| column_or_supercolumn :=
       Some {| column := None; super_column := Some sc |};
     deletion := None |}.

(** The mutations [set] builds from [values]: on a super column family one
    super column for each own property, holding one column for each property
    of its value; on a standard one a column for each property. *)
Definition mutations_of (self : t) (values options : arg) (ts : Z)
  : list Mutation :=
  if isSuper self then
    map (fun kv =>
           super_column_mutation
             {| sc_name := fst kv;
                columns := map (new_Column options ts) (for_in (snd kv)) |})
        (arg_for_own values)
  else
    map (fun kv => column_mutation (new_Column options ts kv))
        (arg_for_in values).

Definition set (self : t) (args : list arg) : effect t :=
  if negb (ready self) then enqueue self m_set args
  else
    let '(callback, args) := pop_callback args in
    let '(key, args) := shift args in
    let '(values, args) := shift args in
    let values := arg_or values (Data (literal [])) in
    let '(options, args) := shift args in
    let options := arg_or options (Data (literal [])) in
    let cl := JS.or_else (arg_get options "consistencyLevel")
                    (Client.write (Client.defaultCL client_)) in
    let ts := now * timestampMultiplier self in
    let mutations := mutations_of self values options ts in
    out self
      [Remote (batch_mutate [(arg_to_string key, [(name self, mutations)])]
                 cl callback)].

Definition remove (self : t) (args : list arg) : effect t :=
  if negb (ready self) then enqueue self m_remove args
  else
    let '(callback, args) := pop_callback args in
    let '(key, args) := shift args in
    let '(column_parent, predicate, level) := parseArguments self args in
    let cl := JS.or_else level (Client.write (Client.defaultCL client_)) in
    let ts := now * timestampMultiplier self in
    let mutations :=
      [ {| column_or_supercolumn := None;
           deletion :=
             Some {| del_timestamp := ts;
                     del_super_column := cp_super_column column_parent;
                     predicate :=
                       match column_names predicate with
                       | Some _ => Some predicate
                       | None => None
                       end |} |} ] in
    out self
      [Remote (batch_mutate [(arg_to_string key, [(name self, mutations)])]
                 cl callback)].

(** The arguments of [enumerate], read into the closure of its callbacks;
    [None] when [options] is null, whose [stride] cannot be read.  (The
    stride is also written back into the options object of the caller,
    which nothing here reads again.) *)
Definition scan_of (self : t) (args : list arg) : option scan :=
  let '(column_names, args) :=
    match args with
    | Data (JArr l) :: rest => (l, rest)
    | _ => ([], args)
    end in
  let '(options, args) :=
    if typeof_object (fst (shift args)) then shift args
    else (Data (literal []), args) in
  let '(callback, args) := shift args in
  let '(done, args) := shift args in
  let '(errback, args) := shift args in
  match options with
  | Data JNull => None
  | _ =>
      Some {| column_parent :=
                {| column_family := name self; cp_super_column := None |};
              slice_predicate :=
                if (0 <? List.length column_names)%nat then
                  {| column_names := Some column_names; slice_range := None |}
                else
                  {| column_names := None;
                     slice_range :=
                       Some {| start := JStr ""; finish := JStr "";
                               reversed := JBool false;
                               Thrift.count := JNum 100 |} |};
              stride := JS.or_else (arg_get options "stride") (JNum 100);
              callback := callback;
              done := arg_or done noop;
              errback := arg_or errback noop |}
  end.

(** A range fetch of [enumerate], from [start_key] on. *)
Definition fetch (s : scan) (start_key : string) : event :=
  Remote (get_range_slices (column_parent s) (slice_predicate s)
            {| start_key := start_key; end_key := ""; kr_count := stride s |}
            (JNum ONE)).

Definition enumerate (self : t) (args : list arg) : effect t :=
  if negb (ready self) then enqueue self m_enumerate args
  else
    match scan_of self args with
    | None => throw self TypeError
    | Some s => out self [fetch s ""]
    end.

Definition truncate (self : t) (args : list arg) : effect t :=
  if negb (ready self) then enqueue self m_truncate args
  else
    let callback := fst (shift args) in
    out self [Remote (Trace.truncate (name self) callback)].

(** [next[0].apply(this, next[1])] *)
Definition apply (m : callee) (self : t) (args : list arg) : effect t :=
  match m with
  | m_get => get self args
  | m_count => count self args
  | m_slice => slice self args
  | m_set => set self args
  | m_remove => remove self args
  | m_enumerate => enumerate self args
  | m_truncate => truncate self args
  end.

(** What [dispatch] did after what the command it took off the queue
    did. *)
Definition and_then (r r' : effect t) : effect t :=
  {| after := after r';
     trace := (trace r ++ trace r')%list;
     thrown := thrown r' |}.

(** [dispatch]: while the handle is ready and the queue is not empty, take
    the head off the queue, apply it, and dispatch again.  An exception of
    the applied method ends the pass.  The recursion is on the length of the
    queue, which a method applied to a ready handle does not touch. *)
Equations? dispatch (self : t) : effect t
  by wf (List.length (queue self)) lt :=
dispatch self with inspect (ready self) := {
  | exist _ false Hr => ret self
  | exist _ true Hr with inspect (queue self) := {
      | exist _ [] Hq => ret self
      | exist _ ((m, args) :: rest) Hq
          with inspect (apply m (with_queue self rest) args) := {
          | exist _ r Hap with thrown r := {
              | Some e => r
              | None => and_then r (dispatch (after r)) } } } }.
Proof.
  rewrite Hq.
  destruct m; cbn;
    unfold get, count, slice, set, remove, enumerate, truncate, Trace.emit_error;
    cbn; try rewrite Hr; cbn;
    repeat match goal with
           | |- context [let '(_, _) := ?a in _] => destruct a
           | |- context [match ?a with _ => _ end] => destruct a
           end;
    cbn; lia.
Defined.

(** The listener of ['keyspaceSet'] the constructor installs; [cfdef] is
    what the event carries, the session's [column_families_]. *)
Definition on_keyspaceSet (self : t) (cfdef : option (list (string * CfDef)))
  : effect t :=
  match cfdef with
  | None => throw self TypeError
  | Some cfdef =>
      let cf := lookup cfdef (name self) in
      seq
        match cf with
        | None =>
            Trace.emit_error (Client.error_listener client_) self
              ("Column Family " ++ name self ++ " does not exist.")
        | Some _ => ret self
        end
        (fun self =>
           let column_type :=
             match cf with
             | Some cf => Some (Thrift.column_type cf)
             | None => column_type self
             end in
           dispatch
             {| name := match cf with
                        | Some cf => cf_name cf
                        | None => name self
                        end;
                queue := queue self;
                ready := true;
                timestampMultiplier := timestampMultiplier self;
                column_type := column_type;
                isSuper := match column_type with
                           | Some kind => (kind =? "Super")%string
                           | None => false
                           end |})
  end.

End Methods.

(** *** The callbacks of [enumerate] *)

(** What the application does with the continuation that comes with a row:
    it calls it, with an error or with none ([JUndefined]), or it never
    does.  An application that calls the continuation of one row more than
    once is outside the embedding. *)
Inductive acknowledgement : Type :=
| Continue (error : data)
| Silent.

(** The surroundings of a scan: what the store answers to the range fetches
    (the first one is number 0), and what the application answers to a
    row. *)
Record world : Type := {
  range : nat -> KeyRange -> reply (list KeySlice);
  on_row : string -> data -> acknowledgement
}.

(** Where a page leaves the scan: at its end, or asking for the page that
    starts at a key. *)
Inductive progress : Type :=
| Stop
| Next_page (start_key : string).

(** [options.stride > rows.length] *)
Definition stride_exceeds (s : scan) (n : nat) : bool :=
  match to_number (stride s) with
  | Some k => Z.of_nat n <? k
  | None => false
  end.

(** [options.stride - 1 === i] *)
Definition last_slot (s : scan) (i : nat) : bool :=
  match to_number (stride s) with
  | Some k => k - 1 =? Z.of_nat i
  | None => false
  end.

(** [row.columns.forEach(function(column) {
       columns[column.column.name] = column.column.value })] *)
Fixpoint flatten_slice (columns : list ColumnOrSuperColumn) (o : props)
  : option props :=
  match columns with
  | [] => Some o
  | entry :: rest =>
      match column entry with
      | Some c => flatten_slice rest (put o (Thrift.name c) (JStr (value c)))
      | None => None
      end
  end.

Section Scanning.
Context {levels : ConsistencyLevel}.
Variable w : world.
Variable s : scan.

(** [rowback(i)] on a page of [n] rows, [rest] being the rows from the
    [i]-th on.  The next page is fetched on the next tick, so the fetch is
    left to the caller. *)
Fixpoint rowback (n i : nat) (rest : list KeySlice) : effect progress :=
  match rest with
  | [] =>
      if stride_exceeds s n then bind (apply_fn (done s) []) Stop (fun _ => ret Stop)
      else
        bind (apply_fn (errback s) [JStr "unexected undefined row"]) Stop
             (fun _ => ret Stop)
  | row :: rest =>
      if last_slot s i then ret (Next_page (key row))
      else
        match flatten_slice (ks_columns row) [] with
        | None => throw Stop TypeError
        | Some columns =>
            bind (apply_fn (callback s) [JStr (key row); literal columns]) Stop
              (fun _ =>
                 match on_row w (key row) (literal columns) with
                 | Silent => ret Stop
                 | Continue error =>
                     if truthy error
                     then bind (apply_fn (errback s) [error]) Stop
                               (fun _ => ret Stop)
                     else rowback n (S i) rest
                 end)
        end
  end.

(** Whether the scan has come to its end or waits for a reply. *)
Inductive status : Type :=
| Over
| Pending.

(** [get_range_slices_callback] on the reply to fetch number [page], which
    started at [start_key], and all that follows from it; each further page
    takes one unit of fuel. *)
Fixpoint get_range_slices_callback (fuel page : nat) (start_key : string)
  : effect status :=
  match fuel with
  | O => ret Pending
  | S fuel =>
      match range w page
              {| start_key := start_key; end_key := ""; kr_count := stride s |}
      with
      | Failure error =>
          bind (apply_fn (errback s) [JError error]) Over (fun _ => ret Over)
      | Success rows =>
          bind (rowback (List.length rows) 0 rows) Over
            (fun p =>
               match p with
               | Stop => ret Over
               | Next_page start_key =>
                   bind (out tt [fetch s start_key]) Over
                     (fun _ => get_range_slices_callback fuel (S page) start_key)
               end)
      end
  end.

End Scanning.

(** A whole [enumerate]: the call on a ready handle and the replies that
    follow it. *)
Definition run_enumerate {levels : ConsistencyLevel}
    (w : world) (fuel : nat) (self : t) (args : list arg) : effect status :=
  bind (enumerate self args) Over
    (fun _ =>
       match scan_of self args with
       | Some s =>
           if ready self then get_range_slices_callback w s fuel 0 ""
           else ret Over
       | None => ret Over
       end).

End ColumnFamily.

(** ** The session and its handles *)

Module Session.
Import JS Thrift Trace.

Record t : Type := {
  client : Client.t;
  handles : list ColumnFamily.t
}.

Section WithLevels.
Context {levels : ConsistencyLevel}.
Variable now : Z.

(** The listeners of ['keyspaceSet'], one for each handle, in the order the
    handles were made; an exception of one ends the emission. *)
Fixpoint listeners (c : Client.t) (cfdef : option (list (string * CfDef)))
    (hs : list ColumnFamily.t) : effect (list ColumnFamily.t) :=
  match hs with
  | [] => ret []
  | h :: rest =>
      let r := ColumnFamily.on_keyspaceSet c now h cfdef in
      bind r (after r :: rest)
        (fun h' =>
           let r' := listeners c cfdef rest in
           {| after := h' :: after r';
              trace := trace r';
              thrown := thrown r' |})
  end.

(** The callback [use] gives to set_keyspace: an error is emitted; otherwise
    ['keyspaceSet'] is emitted with the schema, and the handles are left as
    the listeners left them, also when one of them threw. *)
Definition on_set_keyspace (self : t) (answer : reply unit) : effect t :=
  match answer with
  | Failure e =>
      bind (Client.emit_error (client self) e) self
           (fun c => ret {| client := c; handles := handles self |})
  | Success _ =>
      let cfdef := Client.column_families_ (client self) in
      let r := listeners (client self) cfdef (handles self) in
      {| after := {| client := client self; handles := after r |};
         trace := Emit_keyspaceSet cfdef :: trace r;
         thrown := thrown r |}
  end.

End WithLevels.
End Session.

(** ** The store behind get_range_slices *)

Module Store.
Import JS Thrift Trace.

(** The rows of [table] from the one under [start_key] on. *)
Fixpoint from (start_key : string) (table : list KeySlice) : list KeySlice :=
  match table with
  | [] => []
  | row :: rest =>
      if (key row =? start_key)%string then table else from start_key rest
  end.

(** Modelled from the spec: the store that answers the range fetches, which
    is not part of the library.  [table] holds the rows in the order the
    store ranges over them.  A fetch answers the rows from the start key on,
    the row under that key included, the empty key standing for the
    beginning, and at most [count] of them; a count that is no positive
    number is refused. *)
Definition get_range_slices (table : list KeySlice)
  : nat -> KeyRange -> reply (list KeySlice) :=
  fun _ range =>
    match to_number (kr_count range) with
    | Some n =>
        if 0 <? n then
          Success
            (firstn (Z.to_nat n)
               (if (start_key range =? "")%string then table
                else from (start_key range) table))
        else Failure "InvalidRequestException"
    | None => Failure "InvalidRequestException"
    end.

End Store.

(** ** Notions the properties are stated with *)

Module Notions.
Import JS Thrift Trace.

(** The constants of the Thrift interface of Cassandra 0.7, for the
    examples. *)
Definition cassandra_0_7 : ConsistencyLevel := {| ONE := 1; QUORUM := 2 |}.


(** The consistency level a remote read or write is sent at. *)
Definition level_sent (e : event) : option data :=
  match e with
  | Remote (multiget_slice _ _ _ cl _) => Some cl
  | Remote (multiget_count _ _ _ cl _) => Some cl
  | Remote (batch_mutate _ cl _) => Some cl
  | Remote (get_range_slices _ _ _ cl) => Some cl
  | _ => None
  end.

(** The calls of user functions in a trace. *)
Definition invocations (t : list event) : list event :=
  filter (fun e => match e with Invoke _ _ => true | _ => false end) t.

(** The range fetches in a trace. *)
Definition is_fetch (e : event) : bool :=
  match e with
  | Remote (get_range_slices _ _ _ _) => true
  | _ => false
  end.

(** The columns and super columns that the batches of a trace write. *)
Definition written (t : list event) : list ColumnOrSuperColumn :=
  flat_map
    (fun e =>
       match e with
       | Remote (batch_mutate mutation_map _ _) =>
           flat_map
             (fun by_key =>
                flat_map
                  (fun by_family =>
                     flat_map
                       (fun m =>
                          match column_or_supercolumn m with
                          | Some x => [x]
                          | None => []
                          end)
                       (snd by_family))
                  (snd by_key))
             mutation_map
       | _ => []
       end)
    t.

(** A range fetch is sent at [level]; this holds of every other event. *)
Definition sent_at (level : Z) (e : event) : Prop :=
  match e with
  | Remote (get_range_slices _ _ _ cl) => cl = JNum level
  | _ => True
  end.

(** A row of a standard column family: its entries are columns. *)
Definition flat_row (row : KeySlice) : bool :=
  forallb (fun e => match column e with Some _ => true | None => false end)
          (ks_columns row).

(** The call that hands [row] to the per-row callback [f] of an
    [enumerate]. *)
Definition delivery (f : fn) (row : KeySlice) : event :=
  Invoke f
    [JStr (key row);
     match ColumnFamily.flatten_slice (ks_columns row) [] with
     | Some columns => literal columns
     | None => JUndefined
     end].

(** The name under which an entry of a row goes: the name of its super
    column, or else the name of its column. *)
Definition entry_name (e : ColumnOrSuperColumn) : option string :=
  match super_column e with
  | Some sc => Some (sc_name sc)
  | None => option_map Thrift.name (column e)
  end.


Definition named (name : string) (e : ColumnOrSuperColumn) : bool :=
  match entry_name e with
  | Some n => (n =? name)%string
  | None => false
  end.














(** The methods of a handle that queue themselves while the handle is not
    ready: all but [slice]. *)
Definition queues_itself (m : ColumnFamily.callee) : bool :=
  match m with
  | ColumnFamily.m_slice => false
  | _ => true
  end.

(** The handle once the definition [cf] of its table has arrived, with
    nothing queued. *)
Definition bound (self : ColumnFamily.t) (cf : CfDef) : ColumnFamily.t :=
  {| ColumnFamily.name := cf_name cf;
     ColumnFamily.queue := [];
     ColumnFamily.ready := true;
     ColumnFamily.timestampMultiplier := ColumnFamily.timestampMultiplier self;
     ColumnFamily.column_type := Some (Thrift.column_type cf);
     ColumnFamily.isSuper := (Thrift.column_type cf =? "Super")%string |}.

Section WithLevels.
Context {levels : ConsistencyLevel}.

(** A sequence of calls on a session, one after the other. *)
Fixpoint client_calls (self : Client.t)
    (l : list (Client.callee * list arg)) : effect Client.t :=
  match l with
  | [] => ret self
  | (m, args) :: rest =>
      seq (Client.apply m self args) (fun self => client_calls self rest)
  end.

(** A sequence of calls on a handle, one after the other. *)
Fixpoint calls (client_ : Client.t) (now : Z) (self : ColumnFamily.t)
    (l : list (ColumnFamily.callee * list arg)) : effect ColumnFamily.t :=
  match l with
  | [] => ret self
  | (m, args) :: rest =>
      seq (ColumnFamily.apply client_ now m self args)
          (fun self => calls client_ now self rest)
  end.


End WithLevels.
End Notions.

(** ** A session of the test keyspace *)

Module Scenario.
Import JS Thrift Trace Notions.

(** The keyspace of the test schema: the standard column family. *)
Definition Standard : CfDef :=
  {| cf_name := "Standard"; column_type := "Standard" |}.

Definition schema : list (string * CfDef) := [("Standard", Standard)].

(** A session whose application listens to its errors: constructed, and
    connected without a keyspace. *)
Definition session : Client.t :=
  after (fst (Client.connect
                (Client.new (levels := cassandra_0_7) JUndefined true) [])).

(** The handle of the standard column family, ready. *)
Definition handle : ColumnFamily.t :=
  bound (ColumnFamily.new "Standard" None) Standard.

Definition a_column (name value : string) : ColumnOrSuperColumn :=
  {| column := Some {| Thrift.name := name; value := value;
                       timestamp := 0; ttl := JNull |};
     super_column := None |}.

(** A store with the one row [row1], and an application that acknowledges
    each row. *)
Definition one_row : list KeySlice :=
  [ {| key := "row1"; ks_columns := [a_column "a" "1"] |} ].

Definition acknowledging (table : list KeySlice) : ColumnFamily.world :=
  {| ColumnFamily.range := Store.get_range_slices table;
     ColumnFamily.on_row := fun _ _ => ColumnFamily.Continue JUndefined |}.

End Scenario.

(** ** The constructor of the session: host and port *)

Module Address.

(** [host.split(/:/)]: the pieces of [host] between its colons; there is
    always a first piece. *)
Fixpoint split (s : string) : list string :=
  match s with
  | EmptyString => [EmptyString]
  | String c rest =>
      if Ascii.eqb c ":"%char then EmptyString :: split rest
      else
        match split rest with
        | piece :: pieces => String c piece :: pieces
        | [] => [String c EmptyString]
        end
  end.

(** [this.host = pair[0]; this.port = pair[1]]: the port is undefined
    ([None]) when [host] has no colon. *)
Definition host_port (host : string) : string * option string :=
  let pair := split host in
  (nth 0 pair EmptyString, nth_error pair 1).

(** No colon in the string. *)
Fixpoint colon_free (s : string) : bool :=
  match s with
  | EmptyString => true
  | String c rest => negb (Ascii.eqb c ":"%char) && colon_free rest
  end.

End Address.

(** ** Further notions *)

Module Coverage.
Import JS Thrift Trace Notions.

(** What a scan does before it ends: a range fetch, or a call with two
    arguments, which is how a row is handed to the per-row callback (the
    continuation, its third argument, is not data). *)
Definition scan_step (e : event) : bool :=
  match e with
  | Remote (get_range_slices _ _ _ _) => true
  | Invoke _ [_; _] => true
  | _ => false
  end.

(** How a scan ends, if it has: with a call without arguments (the
    completion callback) or with a call with one argument (the error
    callback), and nothing after it. *)
Definition closing (t : list event) : Prop :=
  t = [] \/
  (exists f, t = [Invoke f []]) \/
  (exists f error, t = [Invoke f [error]]).

(** The columns an entry holds: its column, or the subcolumns of its super
    column. *)
Definition columns_in (x : ColumnOrSuperColumn) : list Column :=
  (match column x with
   | Some c => [c]
   | None => []
   end ++
   match super_column x with
   | Some sc => columns sc
   | None => []
   end)%list.

(** The object of its columns that a row is handed to the per-row callback
    with. *)
Definition row_columns (row : KeySlice) : data :=
  match ColumnFamily.flatten_slice (ks_columns row) [] with
  | Some columns => literal columns
  | None => JUndefined
  end.

(** A row of columns that the application acknowledges without an error. *)
Definition passes (w : ColumnFamily.world) (row : KeySlice) : Prop :=
  flat_row row = true /\
  exists answer,
    ColumnFamily.on_row w (key row) (row_columns row) =
      ColumnFamily.Continue answer /\
    truthy answer = false.

(** The options of a [set]: the argument after the key and the values, or
    an empty object. *)
Definition set_options (args : list arg) : arg :=
  arg_or (nth 2 (snd (pop_callback args)) (Data JUndefined))
         (Data (literal [])).


(** A handle once the schema has arrived: bound to the definition of its
    table, when the schema has one. *)
Definition bound_by (schema : list (string * CfDef)) (h : ColumnFamily.t)
  : ColumnFamily.t :=
  match lookup schema (ColumnFamily.name h) with
  | Some cf => bound h cf
  | None => h
  end.

(** The test keyspace with its two column families. *)
Definition Super : CfDef :=
  {| cf_name := "Super"; column_type := "Super" |}.

Definition both : list (string * CfDef) :=
  [("Standard", Scenario.Standard); ("Super", Super)].

(** The handle of the super column family, ready. *)
Definition super_handle : ColumnFamily.t :=
  bound (ColumnFamily.new "Super" None) Super.

(** A store with three rows. *)
Definition three_rows : list KeySlice :=
  [ {| key := "row1"; ks_columns := [Scenario.a_column "a" "1"] |};
    {| key := "row2"; ks_columns := [Scenario.a_column "a" "2"] |};
    {| key := "row3"; ks_columns := [Scenario.a_column "a" "3"] |} ].

(** A row of the super column family, as the store returns it. *)
Definition nested_row : KeySlice :=
  {| key := "row2";
     ks_columns :=
       [ {| column := None;
            super_column :=
              Some {| sc_name := "sc";
                      columns := [ {| Thrift.name := "a"; value := "1";
                                      timestamp := 0; ttl := JNull |} ] |} |} ] |}.

(** A store whose second row holds a super column. *)
Definition mixed_rows : list KeySlice :=
  (Scenario.one_row ++ [nested_row])%list.

(** An application that acknowledges each row but [row2], which it answers
    with an error. *)
Definition refusing_row2 (table : list KeySlice) : ColumnFamily.world :=
  {| ColumnFamily.range := Store.get_range_slices table;
     ColumnFamily.on_row :=
       fun key _ =>
         if (key =? "row2")%string then ColumnFamily.Continue (JStr "stop")
         else ColumnFamily.Continue JUndefined |}.

(** The arguments of a scan with a given stride, and what [enumerate] keeps
    of them on the standard column family. *)
Definition scan_args (stride : Z) : list arg :=
  [Data (literal [("stride", JNum stride)]);
   Func "callback"; Func "done"; Func "errback"].

Definition the_scan (stride : Z) : ColumnFamily.scan :=
  {| ColumnFamily.column_parent :=
       {| column_family := "Standard"; cp_super_column := None |};
     ColumnFamily.slice_predicate :=
       {| column_names := None;
          slice_range :=
            Some {| start := JStr ""; finish := JStr "";
                    reversed := JBool false; Thrift.count := JNum 100 |} |};
     ColumnFamily.stride := JNum stride;
     ColumnFamily.callback := Func "callback";
     ColumnFamily.done := Func "done";
     ColumnFamily.errback := Func "errback" |}.

(** The session once the keyspace with its two column families has been
    described, and a session nobody listens to, whose keyspace has the
    standard column family only. *)
Definition described : Client.t :=
  Client.with_column_families_ Scenario.session both.

Definition deaf : Client.t :=
  Client.with_column_families_
    (Client.new (levels := cassandra_0_7) JUndefined false) Scenario.schema.

(** A get, a set and an enumerate with null options, as queued calls. *)
Definition a_get : ColumnFamily.callee * list arg :=
  (ColumnFamily.m_get, [Data (JStr "row1"); Func "callback"]).

Definition a_set : ColumnFamily.callee * list arg :=
  (ColumnFamily.m_set, [Data (JStr "row1"); Data (literal [("a", JNum 1)])]).

Definition a_bad_enumerate : ColumnFamily.callee * list arg :=
  (ColumnFamily.m_enumerate, [Data JNull; Func "callback"]).

End Coverage.

(** * Properties *)

Import JS Thrift Trace Notions.

(** ** Property lists *)

Section PropertyLists.
Context {A : Type}.








End PropertyLists.

(** ** Objects *)

Section Objects.









End Objects.
(** ** The replies of the multiget calls *)

Section Replies.
Context {levels : ConsistencyLevel}.

















(** C9: when the remote call reports an error, the callback of [get] is
    called twice, from the error branch with the error alone and again
    after the flattening code, and so is the callback of [count], whose
    first call has a second argument that is still undefined. *)
Theorem error_reply_calls_back_twice (keys : list arg) (callback : fn)
    (error : string) :
  ColumnFamily.on_multiget_slice keys (Some callback) (Failure error) =
    out tt [Invoke callback [JError error];
            Invoke callback [JError error; ColumnFamily.unwrap keys []]] /\
  ColumnFamily.on_multiget_count keys (Some callback) (Failure error) =
    out tt [Invoke callback [JError error; JUndefined];
            Invoke callback [JError error; ColumnFamily.unwrap keys []]].
Proof.
  split; reflexivity.
Qed.

End Replies.

(** ** The default consistency levels *)

Section Levels.
Context {levels : ConsistencyLevel}.

(** C6 (amended): the setter of the default consistency levels, given an
    object, derives both levels from that object alone: a field that holds
    a truthy value becomes the default, a field that the object does not
    have, or that holds a falsy value (0, null, undefined, false, the empty
    string), makes the default QUORUM, and what the defaults were before
    plays no part.  The setter does nothing else to the session. *)
Theorem consistencyLevel_rederives_both (c c' : Client.t)
    (own inherited : props) :
  let newCL := JObj own inherited in
  let r := Client.consistencyLevel c newCL in
  let derived field :=
    if truthy (JS.get newCL field) then JS.get newCL field
    else JNum QUORUM in
  thrown r = None /\
  trace r = [] /\
  Client.read (Client.defaultCL (after r)) = derived "read" /\
  Client.write (Client.defaultCL (after r)) = derived "write" /\
  Client.defaultCL (after r) =
    Client.defaultCL (after (Client.consistencyLevel c' newCL)) /\
  Client.with_defaultCL (after r) (Client.defaultCL c) = c.
Proof.
  cbn. unfold JS.or_else. repeat split. now destruct c.
Qed.




(** [dispatch], unfolded once. *)
Lemma client_dispatch_step (self : Client.t) :
  Client.dispatch self =
  if Client.ready self then
    match Client.queue self with
    | [] => ret self
    | (m, args) :: rest =>
        let r := Client.apply m (Client.with_queue self rest) args in
        match thrown r with
        | Some _ => r
        | None => Client.and_then r (Client.dispatch (after r))
        end
    end
  else ret self.
Proof.
  funelim (Client.dispatch self).
  - rewrite Hr. reflexivity.
  - rewrite Hr, Hq. reflexivity.
  - rewrite Hr, Hq. cbn zeta. rewrite Heq. reflexivity.
  - rewrite Hr, Hq. cbn zeta. rewrite Heq. reflexivity.
Qed.

(** A method called on a ready session leaves the flag and the queue. *)
Lemma client_apply_ready (m : Client.callee) (self : Client.t)
    (args : list arg) :
  Client.ready self = true ->
  Client.ready (after (Client.apply m self args)) = true /\
  Client.queue (after (Client.apply m self args)) = Client.queue self /\
  thrown (Client.apply m self args) = None.
Proof.
  intros H.
  destruct m; cbn;
    unfold Client.use, Client.addKeySpace, Client.dropKeySpace;
    rewrite H; cbn; try (destruct (shift args)); cbn; auto.
Qed.









End Levels.

(** ** remove *)

Section Remove.
Context {levels : ConsistencyLevel}.

(** The predicate the normalisers resolve carries a list of column names
    exactly when the columns argument is an array or a non-empty string:
    on a standard column family the first argument, on a super column
    family the argument after the name of a super column. *)
Lemma parseArguments_column_names (self : ColumnFamily.t) (args : list arg) :
  column_names (snd (fst (ColumnFamily.parseArguments self args))) =
  let first_ := fst (shift args) in
  let second := fst (shift (snd (shift args))) in
  if ColumnFamily.isSuper self then
    match first_ with
    | Data (JStr name) =>
        if negb (name =? "")%string && arg_truthy second
        then ColumnFamily.sliced second
        else None
    | _ => None
    end
  else if arg_truthy first_ then ColumnFamily.sliced first_ else None.
Proof.
  unfold ColumnFamily.parseArguments, ColumnFamily.parseArgumentsForSuperCF_,
    ColumnFamily.parseArgumentsForStandardCF_, ColumnFamily.columns_or_options_.
  destruct (ColumnFamily.isSuper self).
  - destruct (shift args) as [a rest]. cbn [fst snd].
    destruct a as [d|f]; cbn.
    + destruct d; cbn; try reflexivity.
      * destruct b; reflexivity.
      * destruct (n =? 0); reflexivity.
      * destruct (s =? "")%string; cbn; [reflexivity|].
        destruct (shift rest) as [a' rest']. cbn.
        destruct (arg_truthy a'); [|reflexivity].
        destruct (ColumnFamily.sliced a'); reflexivity.
    + reflexivity.
  - destruct (shift args) as [a rest]. cbn [fst snd].
    destruct (arg_truthy a); [|reflexivity].
    destruct (ColumnFamily.sliced a); reflexivity.
Qed.


End Remove.

(** ** enumerate: the consistency level of the range fetches *)

Section Fetches.
Context {levels : ConsistencyLevel}.

Lemma apply_fn_sent_at (f : arg) (args : list data) :
  Forall (sent_at ONE) (trace (apply_fn f args)).
Proof.
  destruct f; cbn; repeat constructor.
Qed.

Lemma bind_sent_at {S T : Type} (m : effect S) (dflt : T)
    (k : S -> effect T) :
  Forall (sent_at ONE) (trace m) ->
  (forall x, Forall (sent_at ONE) (trace (k x))) ->
  Forall (sent_at ONE) (trace (bind m dflt k)).
Proof.
  intros Hm Hk. unfold bind. destruct (thrown m); cbn; [exact Hm|].
  apply Forall_app. split; [exact Hm|apply Hk].
Qed.

Lemma rowback_sent_at (w : ColumnFamily.world) (s : ColumnFamily.scan)
    (n i : nat) (rest : list KeySlice) :
  Forall (sent_at ONE) (trace (ColumnFamily.rowback w s n i rest)).
Proof.
  revert i. induction rest as [|row rest IH]; intros i; cbn.
  - destruct (ColumnFamily.stride_exceeds s n);
      (apply bind_sent_at; [apply apply_fn_sent_at|intros; constructor]).
  - destruct (ColumnFamily.last_slot s i); [constructor|].
    destruct (ColumnFamily.flatten_slice (ks_columns row) []); [|constructor].
    apply bind_sent_at; [apply apply_fn_sent_at|]. intros _.
    destruct (ColumnFamily.on_row w (key row) (literal p)); [|constructor].
    destruct (truthy error); [|apply IH].
    apply bind_sent_at; [apply apply_fn_sent_at|intros; constructor].
Qed.

Lemma get_range_slices_callback_sent_at (w : ColumnFamily.world)
    (s : ColumnFamily.scan) (fuel page : nat) (start_key : string) :
  Forall (sent_at ONE)
    (trace (ColumnFamily.get_range_slices_callback w s fuel page start_key)).
Proof.
  revert page start_key.
  induction fuel as [|fuel IH]; intros page start_key; cbn; [constructor|].
  destruct (ColumnFamily.range w page _) as [error|rows].
  - apply bind_sent_at; [apply apply_fn_sent_at|intros; constructor].
  - apply bind_sent_at; [apply rowback_sent_at|].
    intros [|k]; [constructor|].
    cbn. constructor; [reflexivity|apply IH].
Qed.

(** C10: every range fetch of an [enumerate] is sent at the level ONE: the
    one the call itself sends, whatever the session and its defaults are,
    and the ones its callbacks send, whatever the store and the application
    answer and whatever the options of the call are. *)
Theorem enumerate_fetches_at_ONE (c : Client.t) (now : Z)
    (w : ColumnFamily.world) (fuel : nat) (self : ColumnFamily.t)
    (args : list arg) :
  Forall (sent_at ONE)
    (trace (ColumnFamily.apply c now ColumnFamily.m_enumerate self args)) /\
  Forall (sent_at ONE) (trace (ColumnFamily.run_enumerate w fuel self args)) /\
  forall s start_key,
    level_sent (ColumnFamily.fetch s start_key) = Some (JNum ONE).
Proof.
  assert (Hcall : Forall (sent_at ONE)
                    (trace (ColumnFamily.enumerate self args))).
  { unfold ColumnFamily.enumerate.
    destruct (ColumnFamily.ready self); cbn; [|constructor].
    destruct (ColumnFamily.scan_of self args); cbn; repeat constructor. }
  split; [exact Hcall|]. split; [|reflexivity].
  unfold ColumnFamily.run_enumerate.
  apply bind_sent_at; [exact Hcall|]. intros _.
  destruct (ColumnFamily.scan_of self args); [|constructor].
  destruct (ColumnFamily.ready self); [|constructor].
  apply get_range_slices_callback_sent_at.
Qed.

End Fetches.

(** ** The command queues *)

Section Queues.
Context {levels : ConsistencyLevel}.

Ltac unfold_methods :=
  unfold ColumnFamily.apply, ColumnFamily.get, ColumnFamily.count,
    ColumnFamily.slice, ColumnFamily.set, ColumnFamily.remove,
    ColumnFamily.enumerate, ColumnFamily.truncate, ColumnFamily.enqueue,
    Trace.emit_error.

Ltac split_lets :=
  repeat match goal with
         | |- context [let '(_, _) := ?a in _] => destruct a
         | |- context [match ?a with _ => _ end] => destruct a
         end.

(** *** The session *)

Lemma client_with_queue_queue (c : Client.t) :
  Client.with_queue c (Client.queue c) = c.
Proof. now destruct c. Qed.

(** While the session, connected, is not ready a method only queues
    itself. *)
Lemma client_apply_not_ready (m : Client.callee) (c : Client.t)
    (args : list arg) :
  Client.connected c = true ->
  Client.ready c = false ->
  Client.apply m c args =
  ret (Client.with_queue c (Client.queue c ++ [(m, args)])%list).
Proof.
  intros Hc H.
  destruct m; cbn;
    unfold Client.use, Client.addKeySpace, Client.dropKeySpace, Client.enqueue;
    now rewrite H, Hc.
Qed.

Lemma client_calls_not_ready (l : list (Client.callee * list arg))
    (c : Client.t) :
  Client.connected c = true ->
  Client.ready c = false ->
  client_calls c l = ret (Client.with_queue c (Client.queue c ++ l)%list).
Proof.
  revert c. induction l as [|[m args] l IH]; intros c Hc H; cbn.
  - now rewrite app_nil_r, client_with_queue_queue.
  - rewrite client_apply_not_ready by assumption.
    unfold seq. cbn. rewrite IH by assumption. cbn.
    now rewrite <- app_assoc.
Qed.

(** On a ready session a method does the same whatever is in the queue,
    which it leaves alone. *)
Lemma client_apply_queue (m : Client.callee) (c : Client.t)
    (q : list (Client.callee * list arg)) (args : list arg) :
  Client.ready c = true ->
  Client.apply m (Client.with_queue c q) args =
  let r := Client.apply m (Client.with_queue c []) args in
  {| after := Client.with_queue (after r) q;
     trace := trace r;
     thrown := None |}.
Proof.
  intros H.
  destruct m; cbn;
    unfold Client.use, Client.addKeySpace, Client.dropKeySpace;
    cbn; rewrite H; cbn; try (destruct (shift args)); reflexivity.
Qed.

(** A ready session with a queue dispatches as if the queued calls were
    made now, one after the other, in the order of the queue. *)
Lemma client_dispatch_ready (q : list (Client.callee * list arg))
    (c : Client.t) :
  Client.ready c = true ->
  Client.queue c = q ->
  Client.dispatch c = client_calls (Client.with_queue c []) q.
Proof.
  revert c. induction q as [|[m args] q IH]; intros c Hr Hq;
    rewrite client_dispatch_step, Hr, Hq.
  - cbn. rewrite <- Hq. now rewrite client_with_queue_queue.
  - cbn zeta. rewrite client_apply_queue by exact Hr. cbn.
    set (r := Client.apply m (Client.with_queue c []) args).
    assert (Hr0 : Client.ready (Client.with_queue c []) = true) by exact Hr.
    destruct (client_apply_ready m (Client.with_queue c []) args Hr0)
      as [Hready [Hqueue Hthrown]].
    fold r in Hready, Hqueue, Hthrown.
    unfold seq. fold r. rewrite Hthrown.
    rewrite (IH (Client.with_queue (after r) q)).
    + unfold Client.and_then. cbn.
      replace (Client.with_queue (Client.with_queue (after r) q) [])
        with (after r).
      * reflexivity.
      * cbn in Hqueue. destruct (after r). cbn in *. now subst.
    + exact Hready.
    + reflexivity.
Qed.

(** *** The handle *)

Lemma cf_with_queue_queue (self : ColumnFamily.t) :
  ColumnFamily.with_queue self (ColumnFamily.queue self) = self.
Proof. now destruct self. Qed.

Lemma cf_dispatch_step (c : Client.t) (now : Z) (self : ColumnFamily.t) :
  ColumnFamily.dispatch c now self =
  if ColumnFamily.ready self then
    match ColumnFamily.queue self with
    | [] => ret self
    | (m, args) :: rest =>
        let r :=
          ColumnFamily.apply c now m (ColumnFamily.with_queue self rest) args in
        match thrown r with
        | Some _ => r
        | None =>
            ColumnFamily.and_then r (ColumnFamily.dispatch c now (after r))
        end
    end
  else ret self.
Proof.
  funelim (ColumnFamily.dispatch c now self).
  - rewrite Hr. reflexivity.
  - rewrite Hr, Hq. reflexivity.
  - rewrite Hr, Hq. cbn zeta. rewrite Heq. reflexivity.
  - rewrite Hr, Hq. cbn zeta. rewrite Heq. reflexivity.
Qed.

(** While the handle is not ready a method other than [slice] only queues
    itself. *)
Lemma cf_apply_not_ready (c : Client.t) (now : Z) (m : ColumnFamily.callee)
    (self : ColumnFamily.t) (args : list arg) :
  ColumnFamily.ready self = false ->
  queues_itself m = true ->
  ColumnFamily.apply c now m self args =
  ret (ColumnFamily.with_queue self
         (ColumnFamily.queue self ++ [(m, args)])%list).
Proof.
  intros H Hm. destruct m; try discriminate; unfold_methods; now rewrite H.
Qed.

Lemma cf_calls_not_ready (c : Client.t) (now : Z)
    (l : list (ColumnFamily.callee * list arg)) (self : ColumnFamily.t) :
  ColumnFamily.ready self = false ->
  Forall (fun call => queues_itself (fst call) = true) l ->
  calls c now self l =
  ret (ColumnFamily.with_queue self (ColumnFamily.queue self ++ l)%list).
Proof.
  revert self. induction l as [|[m args] l IH]; intros self H Hl; cbn.
  - now rewrite app_nil_r, cf_with_queue_queue.
  - inversion Hl as [|? ? Hm Hl']; subst. cbn in Hm.
    rewrite cf_apply_not_ready by assumption.
    unfold seq. cbn. rewrite IH by assumption. cbn.
    now rewrite <- app_assoc.
Qed.

(** A method called on a ready handle leaves the handle as it is. *)
Lemma cf_apply_ready (c : Client.t) (now : Z) (m : ColumnFamily.callee)
    (self : ColumnFamily.t) (args : list arg) :
  ColumnFamily.ready self = true ->
  after (ColumnFamily.apply c now m self args) = self.
Proof.
  intros H. destruct m; unfold_methods; try rewrite H; cbn;
    split_lets; reflexivity.
Qed.

(** On a ready handle a method does the same whatever is in the queue. *)
Lemma cf_apply_queue (c : Client.t) (now : Z) (m : ColumnFamily.callee)
    (self : ColumnFamily.t) (q : list (ColumnFamily.callee * list arg))
    (args : list arg) :
  ColumnFamily.ready self = true ->
  trace (ColumnFamily.apply c now m (ColumnFamily.with_queue self q) args) =
    trace (ColumnFamily.apply c now m self args) /\
  thrown (ColumnFamily.apply c now m (ColumnFamily.with_queue self q) args) =
    thrown (ColumnFamily.apply c now m self args).
Proof.
  intros H. destruct m; unfold_methods; cbn; try rewrite H; cbn.
  - destruct (pop_callback args). destruct (shift l).
    unfold ColumnFamily.parseArguments, ColumnFamily.parseArgumentsForSuperCF_,
      ColumnFamily.parseArgumentsForStandardCF_. cbn.
    split_lets; split; reflexivity.
  - destruct (pop_callback args). destruct (shift l).
    unfold ColumnFamily.parseArguments, ColumnFamily.parseArgumentsForSuperCF_,
      ColumnFamily.parseArgumentsForStandardCF_. cbn.
    split_lets; split; reflexivity.
  - split_lets; split; reflexivity.
  - split_lets; split; reflexivity.
  - destruct (pop_callback args). destruct (shift l).
    unfold ColumnFamily.parseArguments, ColumnFamily.parseArgumentsForSuperCF_,
      ColumnFamily.parseArgumentsForStandardCF_. cbn.
    split_lets; split; reflexivity.
  - unfold ColumnFamily.scan_of. cbn. split_lets; split; reflexivity.
  - split; reflexivity.
Qed.

(** A ready handle with a queue dispatches as if the queued calls were made
    now, one after the other, in the order of the queue, up to the first
    one that throws. *)
Lemma cf_dispatch_ready (c : Client.t) (now : Z)
    (q : list (ColumnFamily.callee * list arg)) (self : ColumnFamily.t) :
  ColumnFamily.ready self = true ->
  ColumnFamily.queue self = q ->
  let drained := ColumnFamily.dispatch c now self in
  let direct := calls c now (ColumnFamily.with_queue self []) q in
  trace drained = trace direct /\
  thrown drained = thrown direct /\
  (thrown drained = None -> after drained = ColumnFamily.with_queue self []).
Proof.
  revert self. induction q as [|[m args] q IH]; intros self Hr Hq;
    cbn zeta; rewrite cf_dispatch_step, Hr, Hq.
  - cbn. repeat split. intros _. rewrite <- Hq.
    now rewrite cf_with_queue_queue.
  - cbn zeta.
    destruct (cf_apply_queue c now m self q args Hr) as [Ht1 He1].
    destruct (cf_apply_queue c now m self [] args Hr) as [Ht2 He2].
    assert (Ha1 := cf_apply_ready c now m (ColumnFamily.with_queue self q)
                     args Hr).
    assert (Ha2 := cf_apply_ready c now m (ColumnFamily.with_queue self [])
                     args Hr).
    cbn [calls]. unfold seq.
    rewrite He2, <- He1.
    destruct (thrown (ColumnFamily.apply c now m
                        (ColumnFamily.with_queue self q) args)) eqn:Hthrown.
    + rewrite Ht1, Ht2, He2, <- He1, Hthrown.
      repeat split. intros Habs. congruence.
    + rewrite Ha1, Ha2.
      destruct (IH (ColumnFamily.with_queue self q) Hr eq_refl)
        as [IHt [IHe IHa]].
      cbn zeta in IHt, IHe, IHa.
      unfold ColumnFamily.and_then. cbn [trace thrown after].
      rewrite Ht1, Ht2, IHt, IHe. repeat split.
      intros Hnone. rewrite IHe in IHa. now apply IHa.
Qed.

End Queues.

Section QueueOrder.
Context {levels : ConsistencyLevel}.

(** A method of the session, called when the session is ready, is not
    queued: it sends its remote call at once. *)
Lemma client_apply_runs (m : Client.callee) (c : Client.t) (args : list arg) :
  Client.ready c = true ->
  Client.queue (after (Client.apply m c args)) = Client.queue c /\
  thrown (Client.apply m c args) = None /\
  exists call, trace (Client.apply m c args) = [Remote call].
Proof.
  intros H.
  destruct m; cbn;
    unfold Client.use, Client.addKeySpace, Client.dropKeySpace;
    rewrite H; cbn; try (destruct (shift args)); cbn;
    repeat split; eexists; reflexivity.
Qed.

(** Calls made on a ready session do not throw, and change nothing of the
    session but the keyspace and the cache of handles, which [use] sets. *)
Lemma client_calls_ready (l : list (Client.callee * list arg))
    (s : Client.t) :
  Client.ready s = true ->
  thrown (client_calls s l) = None /\
  after (client_calls s l) =
    Client.with_keyspace s (Client.keyspace (after (client_calls s l)))
      (Client.columnFamilies (after (client_calls s l))).
Proof.
  revert s. induction l as [|[m args] l IH]; intros s Hs.
  - cbn. split; [reflexivity|]. now destruct s.
  - cbn [client_calls]. unfold seq.
    destruct (client_apply_ready m s args Hs) as [Hr [_ Ht]].
    rewrite Ht. cbn [thrown after].
    destruct (IH (after (Client.apply m s args)) Hr) as [IHt IHa].
    split; [exact IHt|].
    rewrite IHa at 1.
    destruct m; cbn [Client.apply];
      unfold Client.use, Client.addKeySpace, Client.dropKeySpace;
      rewrite Hs; cbn [negb];
      try (destruct (shift args) as [a rest]); cbn [after out];
      now destruct s.
Qed.

(** A method of a handle other than [slice], called when the handle is
    ready, is not queued: it sends its remote call at once, unless it
    throws. *)
Lemma cf_apply_runs (c : Client.t) (now : Z) (m : ColumnFamily.callee)
    (self : ColumnFamily.t) (args : list arg) :
  ColumnFamily.ready self = true ->
  queues_itself m = true ->
  after (ColumnFamily.apply c now m self args) = self /\
  (thrown (ColumnFamily.apply c now m self args) = None ->
   exists call, trace (ColumnFamily.apply c now m self args) = [Remote call]).
Proof.
  intros H Hm. split; [now apply cf_apply_ready|].
  destruct m; try discriminate;
    unfold ColumnFamily.apply, ColumnFamily.get, ColumnFamily.count,
      ColumnFamily.set, ColumnFamily.remove, ColumnFamily.enumerate,
      ColumnFamily.truncate;
    rewrite H; cbn [negb];
    repeat match goal with
           | |- context [let '(_, _) := ?a in _] => destruct a
           end;
    try (intros _; eexists; reflexivity).
  destruct (ColumnFamily.scan_of self args); cbn.
  - intros _. eexists. reflexivity.
  - discriminate.
Qed.

(** C1 (amended): on a session on which [connect] has been called, and on
    a handle for the methods that queue themselves (all but [slice]): a
    sequence of calls made while the owner is not ready does nothing but
    append the calls to the queue, in their order; when the owner becomes
    ready (the session on connection, the handle when the definition of its
    table arrives) the queue is drained from its head, each queued method
    being applied to its arguments as if it were called then, so that what
    happens is what the same calls, made in the same order on the ready
    owner, do; provided none of these calls throws (none does on a
    session), the owner is left ready with an empty queue.  A call made
    when the owner is ready is not queued and runs at once. *)
Theorem queue_drains_in_submission_order
    (c : Client.t) (l : list (Client.callee * list arg))
    (client_ : Client.t) (now : Z) (self : ColumnFamily.t)
    (l' : list (ColumnFamily.callee * list arg))
    (cfdef : list (string * CfDef)) (cf : CfDef) :
  Client.connected c = true ->
  Client.ready c = false ->
  ColumnFamily.ready self = false ->
  Forall (fun call => queues_itself (fst call) = true) l' ->
  lookup cfdef (ColumnFamily.name self) = Some cf ->
  (let submitted := client_calls c l in
   let ready_c := Client.with_queue (Client.with_ready c true) [] in
   let drained := Client.become_ready (after submitted) in
   submitted = ret (Client.with_queue c (Client.queue c ++ l)%list) /\
   drained = client_calls ready_c (Client.queue c ++ l)%list /\
   thrown drained = None /\
   after drained =
     Client.with_keyspace ready_c (Client.keyspace (after drained))
       (Client.columnFamilies (after drained)) /\
   forall s m args,
     Client.ready s = true ->
     Client.queue (after (Client.apply m s args)) = Client.queue s /\
     thrown (Client.apply m s args) = None /\
     exists call, trace (Client.apply m s args) = [Remote call]) /\
  (let submitted := calls client_ now self l' in
   let drained :=
     ColumnFamily.on_keyspaceSet client_ now (after submitted) (Some cfdef) in
   let direct :=
     calls client_ now (bound self cf) (ColumnFamily.queue self ++ l')%list in
   submitted =
     ret (ColumnFamily.with_queue self (ColumnFamily.queue self ++ l')%list) /\
   trace drained = trace direct /\
   thrown drained = thrown direct /\
   (thrown drained = None -> after drained = bound self cf) /\
   forall s m args,
     ColumnFamily.ready s = true ->
     queues_itself m = true ->
     after (ColumnFamily.apply client_ now m s args) = s /\
     (thrown (ColumnFamily.apply client_ now m s args) = None ->
      exists call,
        trace (ColumnFamily.apply client_ now m s args) = [Remote call])).
Proof.
  intros Hconn Hc Hself Hl' Hcf. split.
  - cbn zeta. split; [now apply client_calls_not_ready|].
    rewrite client_calls_not_ready by assumption. cbn [after ret].
    unfold Client.become_ready.
    rewrite (client_dispatch_ready (Client.queue c ++ l)%list)
      by reflexivity.
    split; [reflexivity|].
    split; [|split].
    + apply client_calls_ready.
      reflexivity.
    + apply client_calls_ready.
      reflexivity.
    + intros s m args Hs. now apply client_apply_runs.
  - cbn zeta. split; [now apply cf_calls_not_ready|].
    rewrite cf_calls_not_ready by assumption. cbn [after ret].
    unfold ColumnFamily.on_keyspaceSet.
    cbn [ColumnFamily.name ColumnFamily.with_queue]. rewrite Hcf.
    unfold seq. cbn [thrown ret after trace app].
    match goal with
    | |- context [ColumnFamily.dispatch client_ now ?s] =>
        destruct (cf_dispatch_ready client_ now
                    (ColumnFamily.queue self ++ l')%list s eq_refl eq_refl)
          as [Ht [He Ha]]
    end.
    cbn zeta in Ht, He, Ha.
    split; [exact Ht|]. split; [exact He|]. split; [exact Ha|].
    intros s m args Hs Hm. now apply cf_apply_runs.
Qed.

End QueueOrder.

(** ** enumerate: the rows it visits *)

Section Visits.
Context {levels : ConsistencyLevel}.




Lemma flat_row_flattens (row : KeySlice) :
  flat_row row = true ->
  exists columns, ColumnFamily.flatten_slice (ks_columns row) [] = Some columns.
Proof.
  unfold flat_row. generalize (@nil (string * data)).
  induction (ks_columns row) as [|e l IH]; intros o H; cbn.
  - now exists o.
  - cbn in H. apply andb_true_iff in H as [He Hl].
    destruct (column e); [|discriminate]. now apply IH.
Qed.

Variable w : ColumnFamily.world.
Variable s : ColumnFamily.scan.
Variable k : nat.
Variables f d : fn.

Hypothesis stride_k : ColumnFamily.stride s = JNum (Z.of_nat k).
Hypothesis callback_f : ColumnFamily.callback s = Func f.
Hypothesis done_d : ColumnFamily.done s = Func d.
Hypothesis acknowledged :
  forall key columns, exists error,
    ColumnFamily.on_row w key columns = ColumnFamily.Continue error /\
    truthy error = false.

Lemma last_slot_iff (i : nat) :
  ColumnFamily.last_slot s i = (Nat.eqb k (S i)).
Proof.
  unfold ColumnFamily.last_slot. rewrite stride_k. cbn [to_number].
  destruct (Nat.eqb_spec k (S i)) as [Heq|Hne].
  - apply Z.eqb_eq. lia.
  - apply Z.eqb_neq. lia.
Qed.




Variable table : list KeySlice.

Hypothesis store :
  forall page range_,
    ColumnFamily.range w page range_ = Store.get_range_slices table page range_.
Hypothesis keys_differ : NoDup (map key table).
Hypothesis well_formed :
  Forall (fun row => key row <> "" /\ flat_row row = true) table.
Hypothesis stride_2 : (2 <= k)%nat.




End Visits.

Section Enumerate.
Context {levels : ConsistencyLevel}.


(** With a stride of one the first row fills the last slot of every page:
    the scan fetches the page that starts at that row again and again. *)
Lemma stride_1_refetches (w : ColumnFamily.world) (s : ColumnFamily.scan)
    (row : KeySlice) (rest : list KeySlice) (fuel page : nat)
    (start_key : string) :
  ColumnFamily.stride s = JNum 1 ->
  (forall page range_,
      ColumnFamily.range w page range_ =
      Store.get_range_slices (row :: rest) page range_) ->
  start_key = "" \/ start_key = key row ->
  ColumnFamily.get_range_slices_callback w s fuel page start_key =
  {| after := ColumnFamily.Pending;
     trace := repeat (ColumnFamily.fetch s (key row)) fuel;
     thrown := None |}.
Proof.
  intros Hs Hstore. revert page start_key.
  induction fuel as [|fuel IH]; intros page start_key Hstart; [reflexivity|].
  cbn [ColumnFamily.get_range_slices_callback].
  rewrite Hstore. unfold Store.get_range_slices.
  cbn [kr_count Thrift.start_key]. rewrite Hs. cbn [to_number Z.ltb Z.compare].
  assert (Hfrom : (if (start_key =? "")%string then row :: rest
                   else Store.from start_key (row :: rest)) = row :: rest).
  { destruct (String.eqb_spec start_key "") as [_|Hne]; [reflexivity|].
    destruct Hstart as [->| ->]; [contradiction|].
    cbn. now rewrite String.eqb_refl. }
  rewrite Hfrom. cbn [Z.to_nat].
  change (Pos.to_nat 1) with 1%nat.
  cbn [firstn List.length ColumnFamily.rowback].
  unfold ColumnFamily.last_slot. rewrite Hs. cbn [to_number].
  change (1 - 1 =? Z.of_nat 0) with true. cbn iota.
  unfold bind. cbn [thrown ret after trace out app].
  rewrite (IH (S page) (key row)) by now right.
  reflexivity.
Qed.

End Enumerate.

(** ** set, and the listener of the schema, in general *)

Section Writes.
Context {levels : ConsistencyLevel}.





(** A dispatch leaves a ready handle ready. *)
Lemma cf_dispatch_stays_ready (c : Client.t) (now : Z) (self : ColumnFamily.t) :
  ColumnFamily.ready self = true ->
  ColumnFamily.ready (after (ColumnFamily.dispatch c now self)) = true.
Proof.
  remember (List.length (ColumnFamily.queue self)) as n eqn:Hn.
  revert self Hn. induction n as [|n IH]; intros self Hn Hr;
    rewrite cf_dispatch_step, Hr;
    destruct (ColumnFamily.queue self) as [|[m args] rest] eqn:Hq;
    try exact Hr; try discriminate.
  cbn zeta.
  assert (Ha := cf_apply_ready c now m (ColumnFamily.with_queue self rest)
                  args Hr).
  destruct (thrown (ColumnFamily.apply c now m
                      (ColumnFamily.with_queue self rest) args)).
  - now rewrite Ha.
  - cbn. rewrite Ha. apply IH; [|exact Hr]. cbn. cbn in Hn. congruence.
Qed.

(** When the schema lacks the table of a handle and the application listens
    to the errors of the session, the listener emits the error and then
    makes the handle ready and dispatches its queue. *)
Lemma missing_table_heard (c : Client.t) (now : Z) (self : ColumnFamily.t)
    (cfdef : list (string * CfDef)) :
  lookup cfdef (ColumnFamily.name self) = None ->
  Client.error_listener c = true ->
  let r := ColumnFamily.on_keyspaceSet c now self (Some cfdef) in
  ColumnFamily.ready (after r) = true /\
  exists rest,
    trace r =
    Emit_error ("Column Family " ++ ColumnFamily.name self ++ " does not exist.")
    :: rest.
Proof.
  intros Hmissing Hlistening. cbn zeta.
  unfold ColumnFamily.on_keyspaceSet. rewrite Hmissing.
  unfold Trace.emit_error. rewrite Hlistening.
  unfold seq. cbn [thrown out after trace app]. split.
  - now apply cf_dispatch_stays_ready.
  - eexists. reflexivity.
Qed.

(** When nobody listens, the emitter throws the error, and the listener
    ends there: the handle stays as it was. *)
Lemma missing_table_unheard (c : Client.t) (now : Z) (self : ColumnFamily.t)
    (cfdef : list (string * CfDef)) :
  lookup cfdef (ColumnFamily.name self) = None ->
  Client.error_listener c = false ->
  ColumnFamily.on_keyspaceSet c now self (Some cfdef) =
  throw self
    (Unhandled
       ("Column Family " ++ ColumnFamily.name self ++ " does not exist.")).
Proof.
  intros Hmissing Hlistening.
  unfold ColumnFamily.on_keyspaceSet. rewrite Hmissing.
  unfold Trace.emit_error. rewrite Hlistening. reflexivity.
Qed.

End Writes.

(** ** Where the code departs from its specification *)

Section Departures.
Import Scenario.
#[local] Existing Instance cassandra_0_7.

(** C1, as stated, fails in more than one way.  [slice], called on a
    handle that is not ready, is not appended to the queue and emits an
    error on the session at once.  On a session before [connect] a [use]
    throws and queues nothing.  [connect] and the setter
    [consistencyLevel], called on a session that is not ready, are not
    queued either: the one empties the queue, the other sets the default
    at once.  And when a drained call throws, as an [enumerate] with null
    options does, the calls queued behind it are not invoked. *)
Lemma not_every_call_is_queued :
  (let self := ColumnFamily.new "Standard" None in
   let r := ColumnFamily.apply session 0 ColumnFamily.m_slice self [] in
   ColumnFamily.ready self = false /\
   ColumnFamily.queue (after r) = [] /\
   trace r =
     [Emit_error "slice(get_range_slices, get_indexed_slices) not supported."] /\
   ~ (ColumnFamily.queue (after r) =
        (ColumnFamily.queue self ++ [(ColumnFamily.m_slice, [])])%list /\
      trace r = [])) /\
  (let fresh := Client.new JUndefined true in
   let r :=
     Client.apply Client.m_use fresh [Data (JStr "node_cassandra_test")] in
   Client.ready fresh = false /\
   thrown r = Some TypeError /\
   Client.queue (after r) = []) /\
  (let queued := (Client.m_use, [Data (JStr "node_cassandra_test")]) in
   let waiting := after (Client.apply (fst queued) session (snd queued)) in
   Client.ready waiting = false /\
   Client.queue waiting = [queued] /\
   Client.queue (after (fst (Client.connect waiting []))) = [] /\
   let r := Client.consistencyLevel waiting (literal [("read", JNum ONE)]) in
   Client.queue (after r) = [queued] /\
   Client.read (Client.defaultCL waiting) = JNum QUORUM /\
   Client.read (Client.defaultCL (after r)) = JNum ONE) /\
  (let self :=
     ColumnFamily.with_queue (ColumnFamily.new "Standard" None)
       [Coverage.a_get; Coverage.a_bad_enumerate; Coverage.a_set] in
   let r := ColumnFamily.on_keyspaceSet session 0 self (Some schema) in
   thrown r = Some TypeError /\
   List.length (trace r) = 1%nat /\
   ColumnFamily.queue (after r) = [Coverage.a_set]).
Proof.
  repeat split; try reflexivity. intros [H _]. discriminate H.
Qed.



(** C6, as stated, fails on a field that is present and falsy: given
    [{read: 0}] the setter makes the default read level QUORUM, not 0. *)
Lemma present_falsy_field_is_replaced :
  let newCL := literal [("read", JNum 0)] in
  let r := Client.consistencyLevel session newCL in
  hasOwnProperty newCL "read" = true /\
  JS.get newCL "read" = JNum 0 /\
  Client.read (Client.defaultCL (after r)) = JNum QUORUM /\
  Client.read (Client.defaultCL (after r)) <> JS.get newCL "read".
Proof.
  cbn zeta. repeat split; try reflexivity. discriminate.
Qed.

(** C2, at a stride of one over a table of one row: however many replies
    arrive, the scan is still waiting for one; it has called neither the
    per-row callback nor the completion callback, and all it has done is
    fetch, once for the call and once for each reply. *)
Theorem enumerate_stride_1_never_delivers (fuel : nat) :
  let args :=
    [Data (literal [("stride", JNum 1)]);
     Func "callback"; Func "done"; Func "errback"] in
  let r :=
    ColumnFamily.run_enumerate (acknowledging one_row) fuel handle args in
  after r = ColumnFamily.Pending /\
  thrown r = None /\
  invocations (trace r) = [] /\
  List.length (trace r) = S fuel /\
  forallb is_fetch (trace r) = true.
Proof.
  cbn zeta. unfold ColumnFamily.run_enumerate.
  change (ColumnFamily.enumerate handle _)
    with (out handle
            [ColumnFamily.fetch
               {| ColumnFamily.column_parent :=
                    {| column_family := "Standard"; cp_super_column := None |};
                  ColumnFamily.slice_predicate :=
                    {| column_names := None;
                       slice_range :=
                         Some {| start := JStr ""; finish := JStr "";
                                 reversed := JBool false;
                                 Thrift.count := JNum 100 |} |};
                  ColumnFamily.stride := JNum 1;
                  ColumnFamily.callback := Func "callback";
                  ColumnFamily.done := Func "done";
                  ColumnFamily.errback := Func "errback" |} ""]).
  unfold bind. cbn [thrown out after trace ColumnFamily.scan_of].
  change (ColumnFamily.scan_of handle _)
    with (Some
            {| ColumnFamily.column_parent :=
                 {| column_family := "Standard"; cp_super_column := None |};
               ColumnFamily.slice_predicate :=
                 {| column_names := None;
                    slice_range :=
                      Some {| start := JStr ""; finish := JStr "";
                              reversed := JBool false;
                              Thrift.count := JNum 100 |} |};
               ColumnFamily.stride := JNum 1;
               ColumnFamily.callback := Func "callback";
               ColumnFamily.done := Func "done";
               ColumnFamily.errback := Func "errback" |}).
  cbn iota. change (ColumnFamily.ready handle) with true. cbn iota.
  rewrite (stride_1_refetches (acknowledging one_row) _
             {| key := "row1"; ks_columns := [a_column "a" "1"] |} [] fuel 0 "")
    by (reflexivity || (now left)).
  cbn [after thrown trace app]. repeat split.
  - unfold invocations. cbn [filter ColumnFamily.fetch].
    induction fuel as [|n IH]; [reflexivity|exact IH].
  - cbn [List.length]. now rewrite repeat_length.
  - cbn [forallb is_fetch ColumnFamily.fetch andb].
    induction fuel as [|n IH]; [reflexivity|exact IH].
Qed.

(** C4, on a session whose application listens to its errors: when the
    schema has no definition for the table of a handle, the listener emits
    the error and goes on: the handle becomes ready and its queue is
    drained, the queued get being sent to the store. *)
Theorem missing_table_handle_becomes_ready :
  let self :=
    ColumnFamily.with_queue (ColumnFamily.new "Missing" None)
      [(ColumnFamily.m_get, [Data (JStr "row1"); Func "callback"])] in
  let r := ColumnFamily.on_keyspaceSet session 0 self (Some schema) in
  lookup schema (ColumnFamily.name self) = None /\
  thrown r = None /\
  ColumnFamily.ready (after r) = true /\
  ColumnFamily.queue (after r) = [] /\
  trace r =
    [Emit_error "Column Family Missing does not exist.";
     Remote
       (multiget_slice [Data (JStr "row1")]
          {| column_family := "Missing"; cp_super_column := None |}
          {| column_names := None;
             slice_range :=
               Some {| start := JStr ""; finish := JStr "";
                       reversed := JBool false; Thrift.count := JNum 100 |} |}
          (JNum QUORUM) (Some "callback"))].
Proof.
  vm_compute. repeat split.
Qed.

(** C7, on the standard column family: a property that the value object
    inherits is written as a column, next to its own property. *)
Theorem set_writes_inherited_properties :
  let values := JObj [("a", JNum 1)] [("b", JNum 2)] in
  let column name value :=
    {| column_or_supercolumn :=
         Some {| column := Some {| Thrift.name := name; value := value;
                                    timestamp := 1000; ttl := JNull |};
                 super_column := None |};
       deletion := None |} in
  for_own values = [("a", JNum 1)] /\
  trace (ColumnFamily.set session 1000 handle [Data (JStr "row1"); Data values]) =
    [Remote
       (batch_mutate
          [("row1", [("Standard", [column "a" "1"; column "b" "2"])])]
          (JNum QUORUM) None)].
Proof.
  vm_compute. split; reflexivity.
Qed.

End Departures.

(** ** The properties at work on the test keyspace *)

Section Witnesses.
Import Scenario.
#[local] Existing Instance cassandra_0_7.

Lemma queue_drains_in_submission_order_witness :
  let l :=
    [(Client.m_use, [Data (JStr "node_cassandra_test")]);
     (Client.m_dropKeySpace, [Data (JStr "old"); Func "callback"])] in
  let self := ColumnFamily.new "Standard" None in
  let l' :=
    [(ColumnFamily.m_set,
      [Data (JStr "row1"); Data (literal [("a", JNum 1)])]);
     (ColumnFamily.m_get, [Data (JStr "row1"); Func "callback"])] in
  Client.connected session = true /\
  Client.ready session = false /\
  ColumnFamily.ready self = false /\
  Forall (fun call => queues_itself (fst call) = true) l' /\
  lookup schema (ColumnFamily.name self) = Some Standard /\
  Client.become_ready (after (client_calls session l)) =
    client_calls (Client.with_queue (Client.with_ready session true) []) l /\
  trace (ColumnFamily.on_keyspaceSet session 0
           (after (calls session 0 self l')) (Some schema)) =
    trace (calls session 0 (bound self Standard) l').
Proof.
  cbn zeta.
  assert (H0 : Client.connected session = true) by reflexivity.
  assert (H1 : Client.ready session = false) by reflexivity.
  assert (H2 : ColumnFamily.ready (ColumnFamily.new "Standard" None) = false)
    by reflexivity.
  assert (H3 : Forall (fun call => queues_itself (fst call) = true)
                 [(ColumnFamily.m_set,
                   [Data (JStr "row1"); Data (literal [("a", JNum 1)])]);
                  (ColumnFamily.m_get, [Data (JStr "row1"); Func "callback"])])
    by (repeat constructor).
  assert (H4 : lookup schema
                 (ColumnFamily.name (ColumnFamily.new "Standard" None)) =
               Some Standard) by reflexivity.
  destruct (queue_drains_in_submission_order session
              [(Client.m_use, [Data (JStr "node_cassandra_test")]);
               (Client.m_dropKeySpace, [Data (JStr "old"); Func "callback"])]
              session 0 (ColumnFamily.new "Standard" None) _ schema Standard
              H0 H1 H2 H3 H4) as [[_ [Hc _]] [_ [Hh _]]].
  repeat split; try assumption.
Defined.



Lemma consistencyLevel_rederives_both_witness :
  let newCL := literal [("read", JNum ONE); ("write", JNum 0)] in
  let before :=
    after (Client.consistencyLevel session
             (literal [("read", JNum 5); ("write", JNum 5)])) in
  let r := Client.consistencyLevel before newCL in
  Client.read (Client.defaultCL (after r)) = JNum ONE /\
  Client.write (Client.defaultCL (after r)) = JNum QUORUM.
Proof.
  cbn zeta.
  destruct (consistencyLevel_rederives_both
              (after (Client.consistencyLevel session
                        (literal [("read", JNum 5); ("write", JNum 5)])))
              session [("read", JNum ONE); ("write", JNum 0)] [])
    as [_ [_ [Hread [Hwrite _]]]].
  split; [exact Hread|exact Hwrite].
Defined.


End Witnesses.

(** * Further properties of the library *)

Import Coverage.

(** ** Host and port *)

Section HostPort.

Lemma split_colon_free (s : string) :
  Address.colon_free s = true -> Address.split s = [s].
Proof.
  induction s as [|c s IH]; cbn; [reflexivity|].
  intros H. apply andb_true_iff in H as [Hc Hs].
  destruct (Ascii.eqb c ":"%char); [discriminate|].
  now rewrite IH.
Qed.

Lemma split_at_colon (h rest : string) :
  Address.colon_free h = true ->
  Address.split (h ++ String ":"%char rest) = h :: Address.split rest.
Proof.
  induction h as [|c h IH]; cbn; [reflexivity|].
  intros H. apply andb_true_iff in H as [Hc Hs].
  destruct (Ascii.eqb c ":"%char); [discriminate|].
  now rewrite IH.
Qed.

(** X1: the constructor reads "host:port" back into its two parts, when
    neither holds a colon, and reads a host without a colon as a host
    with no port (the port is undefined). *)
Theorem host_port_reads_back (h p : string) :
  Address.colon_free h = true ->
  Address.colon_free p = true ->
  Address.host_port (h ++ ":" ++ p) = (h, Some p) /\
  Address.host_port h = (h, None).
Proof.
  intros Hh Hp. unfold Address.host_port. split.
  - change (":" ++ p) with (String ":"%char p).
    rewrite split_at_colon by exact Hh.
    now rewrite split_colon_free by exact Hp.
  - now rewrite split_colon_free by exact Hh.
Qed.

End HostPort.

(** ** The reply of count, and replies without a callback *)

Section MoreReplies.
Context {levels : ConsistencyLevel}.






End MoreReplies.

(** ** The argument normalisers *)

Section Normalisers.





End Normalisers.

(** ** The handshake of the session *)

Section Handshake.
Context {levels : ConsistencyLevel}.



(** X7: [connect] with the name of a keyspace leaves the session not ready,
    with the selection of the keyspace as the one queued command, whatever
    was queued before; when the connection comes up (no error, no
    credential) the session is ready, its queue is empty, the keyspace is
    recorded and its description is requested. *)
Theorem connect_then_selects_keyspace (c : Client.t) (name : string) :
  name <> "" ->
  let connected := Client.connect c [Data (JStr name)] in
  let r := Client.on_connect (after (fst connected)) None (snd connected) in
  trace (fst connected) = [] /\
  Client.ready (after (fst connected)) = false /\
  List.length (Client.queue (after (fst connected))) = 1%nat /\
  trace r = [Remote (describe_keyspace (Data (JStr name)))] /\
  thrown r = None /\
  Client.ready (after r) = true /\
  Client.queue (after r) = [] /\
  Client.keyspace (after r) = Data (JStr name).
Proof.
  intros Hname. cbn zeta. unfold Client.connect.
  cbn [shift fst snd arg_truthy truthy].
  destruct (String.eqb_spec name "") as [|_]; [contradiction|].
  cbn [negb]. unfold Client.use at 1 2 3.
  cbn [Client.ready Client.with_queue Client.with_ready Client.with_keyspace
       negb Client.enqueue ret trace after Client.queue app List.length fst snd].
  repeat split.
  all: unfold Client.on_connect; cbn [arg_truthy truthy];
    unfold Client.become_ready;
    match goal with
    | |- context [Client.dispatch ?s] =>
        rewrite (client_dispatch_ready (Client.queue s) s eq_refl eq_refl)
    end;
    reflexivity.
Qed.

End Handshake.

Section Login.
Context {levels : ConsistencyLevel}.

(** X8: [connect] with a keyspace and a credential: when the connection
    comes up the session logs in and stays as it was, not ready, the
    selection of the keyspace still queued.  A refused login leaves it so
    and only reports the error; an accepted login makes the session ready
    and drains the queue, which requests the description of the
    keyspace. *)
Theorem login_gates_readiness (c : Client.t) (name : string)
    (credential : arg) (error : string) :
  name <> "" ->
  arg_truthy credential = true ->
  let connected := Client.connect c [Data (JStr name); credential] in
  let waiting := Client.on_connect (after (fst connected)) None (snd connected) in
  let refused := Client.on_login (after waiting) (Failure error) in
  let accepted := Client.on_login (after waiting) (Success tt) in
  trace waiting = [Remote (login credential)] /\
  after waiting = after (fst connected) /\
  Client.ready (after waiting) = false /\
  List.length (Client.queue (after waiting)) = 1%nat /\
  refused = Client.emit_error (after waiting) error /\
  after refused = after waiting /\
  (trace refused = [Emit_error error] \/ trace refused = []) /\
  trace accepted = [Remote (describe_keyspace (Data (JStr name)))] /\
  thrown accepted = None /\
  Client.ready (after accepted) = true /\
  Client.queue (after accepted) = [].
Proof.
  intros Hname Hcred. cbn zeta. unfold Client.connect.
  cbn [shift fst snd arg_truthy truthy].
  destruct (String.eqb_spec name "") as [|_]; [contradiction|].
  cbn [negb]. unfold Client.use at 1.
  cbn [Client.ready Client.with_queue Client.with_ready Client.with_keyspace
       negb Client.enqueue ret trace after Client.queue app List.length fst snd].
  unfold Client.on_connect. rewrite Hcred.
  cbn [out after trace thrown Client.on_login].
  split; [reflexivity|]. split; [reflexivity|]. split; [reflexivity|].
  split; [reflexivity|]. split; [reflexivity|]. split.
  { unfold Client.emit_error, Trace.emit_error.
    now destruct (Client.error_listener _). }
  split.
  { unfold Client.emit_error, Trace.emit_error.
    destruct (Client.error_listener _); [now left|now right]. }
  unfold Client.become_ready.
  match goal with
  | |- context [Client.dispatch ?s] =>
      rewrite (client_dispatch_ready (Client.queue s) s eq_refl eq_refl)
  end.
  repeat split.
Qed.

End Login.

(** ** The schema event and the handles *)

Section SchemaEvent.
Context {levels : ConsistencyLevel}.

(** The listener of a handle whose table the schema defines: the handle is
    bound to the definition and its queue is drained. *)
Lemma on_keyspaceSet_defined (c : Client.t) (now : Z) (h : ColumnFamily.t)
    (schema : list (string * CfDef)) (cf : CfDef) :
  lookup schema (ColumnFamily.name h) = Some cf ->
  let r := ColumnFamily.on_keyspaceSet c now h (Some schema) in
  let direct := calls c now (bound h cf) (ColumnFamily.queue h) in
  trace r = trace direct /\
  thrown r = thrown direct /\
  (thrown r = None -> after r = bound h cf).
Proof.
  intros Hcf. cbn zeta. unfold ColumnFamily.on_keyspaceSet. rewrite Hcf.
  unfold seq. cbn [thrown ret after trace app].
  match goal with
  | |- context [ColumnFamily.dispatch c now ?s] =>
      destruct (cf_dispatch_ready c now (ColumnFamily.queue h) s
                  eq_refl eq_refl) as [Ht [He Ha]]
  end.
  cbn zeta in Ht, He, Ha. now repeat split.
Qed.

Lemma listeners_all_defined (c : Client.t) (now : Z)
    (schema : list (string * CfDef)) (hs : list ColumnFamily.t) :
  Forall (fun h => lookup schema (ColumnFamily.name h) <> None) hs ->
  let r := Session.listeners now c (Some schema) hs in
  thrown r = None ->
  after r = map (bound_by schema) hs /\
  trace r =
    flat_map (fun h => trace (calls c now (bound_by schema h)
                                (ColumnFamily.queue h))) hs.
Proof.
  induction hs as [|h hs IH]; intros Hdef; cbn zeta; [now cbn|].
  inversion Hdef as [|? ? Hh Hhs]; subst.
  destruct (lookup schema (ColumnFamily.name h)) as [cf|] eqn:Hcf;
    [|contradiction].
  destruct (on_keyspaceSet_defined c now h schema cf Hcf) as [Ht [He Ha]].
  cbn zeta in Ht, He, Ha.
  cbn [Session.listeners]. unfold bind.
  destruct (thrown (ColumnFamily.on_keyspaceSet c now h (Some schema)))
    eqn:Hthrown; cbn [thrown after trace]; [discriminate|].
  intros Hrest. destruct (IH Hhs Hrest) as [IHa IHt].
  assert (Hb : bound_by schema h = bound h cf).
  { unfold bound_by. now rewrite Hcf. }
  cbn [map flat_map]. rewrite Hb, (Ha eq_refl), IHa, IHt, Ht. now split.
Qed.

(** X9: when the keyspace has been set and the schema defines the table of
    every handle of the session, the schema event, unless a drained call
    throws, leaves every handle bound to its definition (ready, with the
    kind of its table, its queue empty); the handles are notified in the
    order in which they were made, and each one drains its own queue as if
    its calls were made then. *)
Theorem schema_event_binds_every_handle (now : Z) (s : Session.t)
    (schema : list (string * CfDef)) :
  Client.column_families_ (Session.client s) = Some schema ->
  Forall (fun h => lookup schema (ColumnFamily.name h) <> None)
         (Session.handles s) ->
  let r := Session.on_set_keyspace now s (Success tt) in
  thrown r = None ->
  Session.handles (after r) = map (bound_by schema) (Session.handles s) /\
  Session.client (after r) = Session.client s /\
  trace r =
    Emit_keyspaceSet (Some schema)
    :: flat_map (fun h => trace (calls (Session.client s) now
                                   (bound_by schema h) (ColumnFamily.queue h)))
         (Session.handles s).
Proof.
  intros Hschema Hdef. cbn zeta. unfold Session.on_set_keyspace.
  rewrite Hschema. cbn [thrown after trace Session.handles Session.client].
  intros Hthrown.
  destruct (listeners_all_defined (Session.client s) now schema
              (Session.handles s) Hdef Hthrown) as [Ha Ht].
  now rewrite Ha, Ht.
Qed.

Lemma listeners_app (c : Client.t) (now : Z)
    (cfdef : option (list (string * CfDef))) (pre post : list ColumnFamily.t) :
  thrown (Session.listeners now c cfdef pre) = None ->
  let r := Session.listeners now c cfdef (pre ++ post) in
  let r1 := Session.listeners now c cfdef pre in
  let r2 := Session.listeners now c cfdef post in
  after r = (after r1 ++ after r2)%list /\
  trace r = (trace r1 ++ trace r2)%list /\
  thrown r = thrown r2.
Proof.
  induction pre as [|h pre IH]; cbn zeta; [now cbn|].
  cbn [Session.listeners app]. unfold bind.
  destruct (thrown (ColumnFamily.on_keyspaceSet c now h cfdef));
    cbn [thrown after trace]; [discriminate|].
  intros Hpre. destruct (IH Hpre) as [Ha [Ht He]].
  cbn zeta in Ha, Ht, He. rewrite Ha, Ht, He.
  cbn [app]. now rewrite app_assoc.
Qed.

(** X10: when nobody listens to the errors of the session, a handle whose
    table the schema lacks throws its error out of the schema event: the
    handles made before it have been notified, that handle and every handle
    made after it are left exactly as they were, not notified. *)
Theorem unheard_missing_table_ends_the_event (now : Z) (s : Session.t)
    (schema : list (string * CfDef)) (pre post : list ColumnFamily.t)
    (h : ColumnFamily.t) :
  Client.column_families_ (Session.client s) = Some schema ->
  Session.handles s = (pre ++ h :: post)%list ->
  Client.error_listener (Session.client s) = false ->
  thrown (Session.listeners now (Session.client s) (Some schema) pre) = None ->
  lookup schema (ColumnFamily.name h) = None ->
  let r := Session.on_set_keyspace now s (Success tt) in
  thrown r =
    Some (Unhandled
            ("Column Family " ++ ColumnFamily.name h ++ " does not exist.")) /\
  Session.handles (after r) =
    (after (Session.listeners now (Session.client s) (Some schema) pre)
     ++ h :: post)%list /\
  trace r =
    Emit_keyspaceSet (Some schema)
    :: trace (Session.listeners now (Session.client s) (Some schema) pre).
Proof.
  intros Hschema Hhandles Hdeaf Hpre Hmissing. cbn zeta.
  unfold Session.on_set_keyspace. rewrite Hschema, Hhandles.
  cbn [thrown after trace Session.handles Session.client].
  destruct (listeners_app (Session.client s) now (Some schema) pre
              (h :: post) Hpre) as [Ha [Ht He]].
  cbn zeta in Ha, Ht, He. rewrite Ha, Ht, He.
  cbn [Session.listeners].
  rewrite (missing_table_unheard (Session.client s) now h schema Hmissing Hdeaf).
  unfold bind. cbn [thrown throw after trace]. now rewrite app_nil_r.
Qed.

End SchemaEvent.

(** ** A drained call that throws *)

Section Thrown.
Context {levels : ConsistencyLevel}.

(** X11: when a queued call throws as the queue is drained, the pass ends
    there: the calls before it have run in their order, the calls behind it
    are still queued, in their order, and the handle is ready, so that a
    call made later runs before them. *)
Theorem thrown_call_leaves_the_rest_queued (c : Client.t) (now : Z)
    (self : ColumnFamily.t)
    (pre post : list (ColumnFamily.callee * list arg))
    (m : ColumnFamily.callee) (args : list arg) (e : exn) :
  ColumnFamily.ready self = true ->
  ColumnFamily.queue self = (pre ++ (m, args) :: post)%list ->
  thrown (calls c now (ColumnFamily.with_queue self []) pre) = None ->
  thrown (ColumnFamily.apply c now m (ColumnFamily.with_queue self []) args) =
    Some e ->
  let r := ColumnFamily.dispatch c now self in
  thrown r = Some e /\
  ColumnFamily.ready (after r) = true /\
  ColumnFamily.queue (after r) = post /\
  trace r =
    trace (calls c now (ColumnFamily.with_queue self [])
             (pre ++ [(m, args)])%list).
Proof.
  revert self. induction pre as [|[m' args'] pre IH];
    intros self Hr Hq Hpre Hthrow; cbn zeta;
    rewrite cf_dispatch_step, Hr, Hq; cbn [app]; cbn zeta.
  - destruct (cf_apply_queue c now m self post args Hr) as [Ht1 He1].
    destruct (cf_apply_queue c now m self [] args Hr) as [Ht2 He2].
    rewrite He2 in Hthrow. rewrite He1, Hthrow.
    rewrite (cf_apply_ready c now m (ColumnFamily.with_queue self post) args Hr).
    cbn [calls]. unfold seq. rewrite He2, Hthrow, Ht1, Ht2.
    split; [now rewrite He1|]. split; [exact Hr|]. split; reflexivity.
  - set (rest := (pre ++ (m, args) :: post)%list).
    destruct (cf_apply_queue c now m' self rest args' Hr) as [Ht1 He1].
    destruct (cf_apply_queue c now m' self [] args' Hr) as [Ht2 He2].
    assert (Ha1 := cf_apply_ready c now m' (ColumnFamily.with_queue self rest)
                     args' Hr).
    assert (Ha2 := cf_apply_ready c now m' (ColumnFamily.with_queue self [])
                     args' Hr).
    cbn [calls] in Hpre. unfold seq in Hpre. rewrite He2 in Hpre.
    cbn [calls]. unfold seq. rewrite He2, He1.
    destruct (thrown (ColumnFamily.apply c now m' self args')) eqn:Hm';
      [congruence|].
    rewrite Ha2 in Hpre. cbn [thrown] in Hpre.
    rewrite Ha1, Ha2.
    destruct (IH (ColumnFamily.with_queue self rest) Hr eq_refl Hpre Hthrow)
      as [IHe [IHr [IHq IHt]]].
    cbn zeta in IHe, IHr, IHq, IHt.
    unfold ColumnFamily.and_then. cbn [thrown after trace].
    rewrite IHe, IHr, IHq, IHt, Ht1, Ht2. now repeat split.
Qed.

End Thrown.
(** ** More on set *)

Section MoreWrites.
Context {levels : ConsistencyLevel}.

(** X12: every column that one [set] writes, on a standard or on a super
    column family, carries the same timestamp and the same time to live,
    the [ttl] of the options of the call or null.  The timestamp is the
    clock reading times the multiplier of the handle, as long as that
    product is a safe integer (beyond, the product of doubles is
    rounded). *)
Theorem set_stamps_every_column_alike (c : Client.t) (now : Z)
    (self : ColumnFamily.t) (args : list arg) :
  ColumnFamily.ready self = true ->
  exists ts,
    Forall (fun col =>
              timestamp col = ts /\
              ttl col = JS.or_else (arg_get (set_options args) "ttl") JNull)
           (flat_map columns_in
              (written (trace (ColumnFamily.set c now self args)))) /\
    (safe_integer (now * ColumnFamily.timestampMultiplier self) = true ->
     ts = now * ColumnFamily.timestampMultiplier self).
Proof.
  intros Hready. exists (now * ColumnFamily.timestampMultiplier self).
  split; [|reflexivity].
  unfold ColumnFamily.set, set_options. rewrite Hready.
  cbn [negb].
  destruct (pop_callback args) as [callback rest]. cbn [snd].
  assert (Hnth : forall (l : list arg),
             fst (shift (snd (shift (snd (shift l))))) =
             nth 2 l (Data JUndefined)).
  { intros [|a [|b [|x l]]]; reflexivity. }
  destruct (shift rest) as [key rest1] eqn:H1.
  destruct (shift rest1) as [values rest2] eqn:H2.
  destruct (shift rest2) as [options rest3] eqn:H3.
  assert (Hopt : options = nth 2 rest (Data JUndefined)).
  { rewrite <- Hnth, H1. cbn [snd]. rewrite H2. cbn [snd]. now rewrite H3. }
  rewrite <- Hopt.
  set (opts := arg_or options (Data (literal []))).
  set (ts := now * ColumnFamily.timestampMultiplier self).
  unfold written. cbn [trace out flat_map snd]. rewrite !app_nil_r.
  unfold ColumnFamily.mutations_of.
  destruct (ColumnFamily.isSuper self).
  - induction (arg_for_own (arg_or values (Data (literal []))))
      as [|kv l IH]; cbn; [constructor|].
    apply Forall_app. split; [|exact IH].
    unfold columns_in. cbn.
    induction (for_in (snd kv)) as [|kv' l' IH']; cbn; constructor;
      [now split|exact IH'].
  - induction (arg_for_in (arg_or values (Data (literal []))))
      as [|kv l IH]; cbn; [constructor|].
    constructor; [now split|exact IH].
Qed.



End MoreWrites.

(** ** More on enumerate *)

Section Endings.
Context {levels : ConsistencyLevel}.

Lemma closing_nil : closing [].
Proof. now left. Qed.

Ltac shape :=
  repeat split; try apply closing_nil; try discriminate; try assumption.

Lemma apply_fn_closing_0 (f : arg) :
  closing (trace (apply_fn f [])).
Proof.
  destruct f as [d|f]; cbn; [apply closing_nil|]. right. left. now exists f.
Qed.

Lemma apply_fn_closing_1 (f : arg) (x : data) :
  closing (trace (apply_fn f [x])).
Proof.
  destruct f as [d|f]; cbn; [apply closing_nil|]. right. right. now exists f, x.
Qed.

(** The trace of a piece that did one call and then ended. *)
Lemma bind_call_trace {T : Type} (m : effect unit) (dflt : T) :
  trace (bind m dflt (fun _ => ret dflt)) = trace m /\
  after (bind m dflt (fun _ => ret dflt)) = dflt.
Proof.
  unfold bind. destruct (thrown m); cbn; [now split|].
  now rewrite app_nil_r.
Qed.

Lemma bind_out {S T : Type} (x : S) (t : list event) (dflt : T)
    (k : S -> effect T) :
  bind (out x t) dflt k =
  {| after := after (k x);
     trace := (t ++ trace (k x))%list;
     thrown := thrown (k x) |}.
Proof. reflexivity. Qed.

Lemma bind_thrown {S T : Type} (m : effect S) (dflt : T)
    (k : S -> effect T) (e : exn) :
  thrown m = Some e ->
  bind m dflt k = {| after := dflt; trace := trace m; thrown := Some e |}.
Proof. intros H. unfold bind. now rewrite H. Qed.

Lemma bind_returned {S T : Type} (m : effect S) (dflt : T)
    (k : S -> effect T) :
  thrown m = None ->
  bind m dflt k =
  {| after := after (k (after m));
     trace := (trace m ++ trace (k (after m)))%list;
     thrown := thrown (k (after m)) |}.
Proof. intros H. unfold bind. now rewrite H. Qed.

Lemma rowback_shape (w : ColumnFamily.world) (s : ColumnFamily.scan)
    (n : nat) (rest : list KeySlice) (i : nat) :
  let r := ColumnFamily.rowback w s n i rest in
  exists steps ending,
    trace r = (steps ++ ending)%list /\
    forallb scan_step steps = true /\
    closing ending /\
    (forall k, after r = ColumnFamily.Next_page k -> ending = []).
Proof.
  revert i. induction rest as [|row rest IH]; intros i; cbn zeta.
  - cbn [ColumnFamily.rowback].
    destruct (ColumnFamily.stride_exceeds s n).
    + destruct (bind_call_trace (apply_fn (ColumnFamily.done s) [])
                  ColumnFamily.Stop) as [Ht Ha].
      exists [], (trace (apply_fn (ColumnFamily.done s) [])).
      rewrite Ht, Ha. shape. apply apply_fn_closing_0.
    + destruct (bind_call_trace
                  (apply_fn (ColumnFamily.errback s)
                     [JStr "unexected undefined row"])
                  ColumnFamily.Stop) as [Ht Ha].
      exists [], (trace (apply_fn (ColumnFamily.errback s)
                           [JStr "unexected undefined row"])).
      rewrite Ht, Ha. shape. apply apply_fn_closing_1.
  - cbn [ColumnFamily.rowback].
    destruct (ColumnFamily.last_slot s i).
    { exists [], []. shape. }
    destruct (ColumnFamily.flatten_slice (ks_columns row) []) as [columns|].
    2:{ exists [], []. shape. }
    destruct (ColumnFamily.callback s) as [d|f].
    { exists [], []. shape. }
    cbn [apply_fn]. rewrite bind_out. cbn [after trace thrown].
    destruct (ColumnFamily.on_row w (key row) (literal columns))
      as [error|].
    2:{ exists [Invoke f [JStr (key row); literal columns]], [].
        shape. }
    destruct (truthy error).
    + destruct (bind_call_trace (apply_fn (ColumnFamily.errback s) [error])
                  ColumnFamily.Stop) as [Ht Ha].
      exists [Invoke f [JStr (key row); literal columns]],
        (trace (apply_fn (ColumnFamily.errback s) [error])).
      rewrite Ht, Ha. shape. apply apply_fn_closing_1.
    + destruct (IH (S i)) as [steps [ending [Ht [Hs [Hc Hn]]]]].
      cbn zeta in Ht, Hn.
      exists (Invoke f [JStr (key row); literal columns] :: steps), ending.
      rewrite Ht. shape.
Qed.

Lemma callback_shape (w : ColumnFamily.world) (s : ColumnFamily.scan)
    (fuel page : nat) (start_key : string) :
  let r := ColumnFamily.get_range_slices_callback w s fuel page start_key in
  exists steps ending,
    trace r = (steps ++ ending)%list /\
    forallb scan_step steps = true /\
    closing ending /\
    (after r = ColumnFamily.Pending -> ending = []).
Proof.
  revert page start_key.
  induction fuel as [|fuel IH]; intros page start_key; cbn zeta.
  - exists [], []. shape.
  - cbn [ColumnFamily.get_range_slices_callback].
    destruct (ColumnFamily.range w page _) as [error|rows].
    + destruct (bind_call_trace
                  (apply_fn (ColumnFamily.errback s) [JError error])
                  ColumnFamily.Over) as [Ht Ha].
      exists [], (trace (apply_fn (ColumnFamily.errback s) [JError error])).
      rewrite Ht, Ha. shape. apply apply_fn_closing_1.
    + destruct (rowback_shape w s (List.length rows) rows 0)
        as [steps [ending [Ht [Hs [Hc Hn]]]]].
      cbn zeta in Ht, Hn.
      destruct (thrown (ColumnFamily.rowback w s (List.length rows) 0 rows))
        as [e|] eqn:Hthrown.
      { rewrite (bind_thrown _ _ _ e Hthrown). exists steps, ending.
        cbn [trace after]. shape. }
      rewrite (bind_returned _ _ _ Hthrown). cbn [trace after thrown].
      destruct (after (ColumnFamily.rowback w s (List.length rows) 0 rows))
        as [|next] eqn:Hafter.
      { exists steps, ending. cbn [trace after ret]. rewrite app_nil_r.
        shape. }
      rewrite (Hn next eq_refl), app_nil_r in Ht.
      destruct (IH (S page) next) as [steps' [ending' [Ht' [Hs' [Hc' Hp']]]]].
      cbn zeta in Ht', Hp'.
      exists (steps ++ ColumnFamily.fetch s next :: steps')%list, ending'.
      rewrite bind_out. cbn [after trace thrown app].
      rewrite Ht, Ht'. split; [now rewrite <- app_assoc|].
      split; [|now split].
      rewrite forallb_app, Hs. cbn. exact Hs'.
Qed.

(** X14: for an application that calls the continuation that comes with a
    row at most once, whatever else the arguments of an [enumerate] with a
    stride that is a number (or none) are, and whatever the store answers,
    the scan calls the completion callback or the error callback at most
    once, and that call is the last thing it does: all that comes before
    are range fetches and rows handed to the per-row callback.  A scan that
    still waits for a reply has called neither. *)
Theorem enumerate_ends_at_most_once (w : ColumnFamily.world) (fuel : nat)
    (self : ColumnFamily.t) (args : list arg) :
  (forall s, ColumnFamily.scan_of self args = Some s ->
             exists k, ColumnFamily.stride s = JNum k) ->
  let r := ColumnFamily.run_enumerate w fuel self args in
  exists steps ending,
    trace r = (steps ++ ending)%list /\
    forallb scan_step steps = true /\
    closing ending /\
    (after r = ColumnFamily.Pending -> ending = []).
Proof.
  intros _.
  cbn zeta. unfold ColumnFamily.run_enumerate, ColumnFamily.enumerate.
  destruct (ColumnFamily.ready self); cbn [negb].
  - destruct (ColumnFamily.scan_of self args) as [s|].
    + destruct (callback_shape w s fuel 0 "")
        as [steps [ending [Ht [Hs [Hc Hp]]]]].
      cbn zeta in Ht, Hp.
      exists (ColumnFamily.fetch s "" :: steps), ending.
      unfold bind. cbn [thrown out after trace app]. rewrite Ht.
      split; [reflexivity|]. split; [exact Hs|]. now split.
    + exists [], []. shape.
  - exists [], []. unfold bind. cbn.
    destruct (ColumnFamily.scan_of self args); shape.
Qed.

End Endings.

Section Halts.
Context {levels : ConsistencyLevel}.

Variable w : ColumnFamily.world.
Variable s : ColumnFamily.scan.
Variable k : nat.
Variable f : fn.

Hypothesis stride_k : ColumnFamily.stride s = JNum (Z.of_nat k).
Hypothesis callback_f : ColumnFamily.callback s = Func f.

Lemma delivery_row_columns (row : KeySlice) :
  delivery f row = Invoke f [JStr (key row); row_columns row].
Proof. reflexivity. Qed.

Lemma flat_row_columns (row : KeySlice) :
  flat_row row = true ->
  exists columns,
    ColumnFamily.flatten_slice (ks_columns row) [] = Some columns /\
    row_columns row = literal columns.
Proof.
  intros H. destruct (flat_row_flattens row H) as [columns Hc].
  exists columns. split; [exact Hc|]. unfold row_columns. now rewrite Hc.
Qed.

Lemma not_flat_row (row : KeySlice) :
  flat_row row = false ->
  ColumnFamily.flatten_slice (ks_columns row) [] = None.
Proof.
  unfold flat_row. generalize (@nil (string * data)).
  induction (ks_columns row) as [|e l IH]; intros o H; cbn in *;
    [discriminate|].
  destruct (column e); [|reflexivity]. now apply IH.
Qed.

Lemma rowback_passes (pre rest : list KeySlice) (n i : nat) :
  Forall (passes w) pre ->
  (i + List.length pre < k)%nat ->
  ColumnFamily.rowback w s n i (pre ++ rest) =
  let r := ColumnFamily.rowback w s n (i + List.length pre) rest in
  {| after := after r;
     trace := (map (delivery f) pre ++ trace r)%list;
     thrown := thrown r |}.
Proof.
  revert i. induction pre as [|row pre IH]; intros i Hpass Hlt; cbn zeta.
  - cbn. rewrite Nat.add_0_r. now destruct (ColumnFamily.rowback w s n i rest).
  - inversion Hpass as [|? ? [Hflat [answer [Hack Hfalsy]]] Hpre]; subst.
    cbn [app ColumnFamily.rowback List.length] in *.
    rewrite (last_slot_iff s k stride_k).
    destruct (Nat.eqb_spec k (S i)); [lia|].
    destruct (flat_row_columns row Hflat) as [columns [Hc Hrc]].
    rewrite Hc, callback_f. rewrite Hrc in Hack.
    unfold bind. cbn [apply_fn thrown out after trace].
    rewrite Hack, Hfalsy.
    rewrite (IH (S i)) by (assumption || lia). cbn zeta.
    replace (S i + List.length pre)%nat with (i + S (List.length pre))%nat
      by lia.
    cbn [map app thrown after trace].
    rewrite delivery_row_columns, Hrc. reflexivity.
Qed.

Variable page : nat.
Variable start_key : string.
Variables pre post : list KeySlice.
Variable row : KeySlice.
Variable fuel : nat.

Hypothesis answered :
  ColumnFamily.range w page
    {| Thrift.start_key := start_key; end_key := "";
       kr_count := ColumnFamily.stride s |} =
  Success (pre ++ row :: post)%list.
Hypothesis before : Forall (passes w) pre.
Hypothesis not_last : (S (List.length pre) < k)%nat.

(** X15: when the application answers a row with an error, the scan halts:
    the error callback receives that error, no further row of the page is
    delivered, no further page is fetched, and the completion callback is
    not called. *)
Theorem row_error_halts_the_scan (e : fn) (error : data) :
  ColumnFamily.errback s = Func e ->
  flat_row row = true ->
  ColumnFamily.on_row w (key row) (row_columns row) =
    ColumnFamily.Continue error ->
  truthy error = true ->
  ColumnFamily.get_range_slices_callback w s (S fuel) page start_key =
  out ColumnFamily.Over
      (map (delivery f) pre ++ [delivery f row; Invoke e [error]])%list.
Proof.
  intros Herrback Hflat Hack Herror.
  cbn [ColumnFamily.get_range_slices_callback]. rewrite answered.
  rewrite (rowback_passes pre (row :: post)) by (assumption || lia).
  cbn zeta. cbn [ColumnFamily.rowback].
  rewrite (last_slot_iff s k stride_k).
  destruct (Nat.eqb_spec k (S (0 + List.length pre))); [lia|].
  destruct (flat_row_columns row Hflat) as [columns [Hc Hrc]].
  rewrite Hc, callback_f. rewrite Hrc in Hack.
  unfold bind. cbn [apply_fn thrown out after trace].
  rewrite Hack, Herror, Herrback.
  cbn [apply_fn thrown out after trace ret app].
  rewrite delivery_row_columns, Hrc, app_nil_r. reflexivity.
Qed.

(** X16: a row that holds a super column (an entry without a column), as
    the rows of a super column family do, cannot be handed over: when the
    scan reaches it, it throws a TypeError; the rows before it have been
    delivered, and neither the completion callback nor the error callback
    is called. *)
Theorem super_column_row_throws :
  flat_row row = false ->
  ColumnFamily.get_range_slices_callback w s (S fuel) page start_key =
  {| after := ColumnFamily.Over;
     trace := map (delivery f) pre;
     thrown := Some TypeError |}.
Proof.
  intros Hnested.
  cbn [ColumnFamily.get_range_slices_callback]. rewrite answered.
  rewrite (rowback_passes pre (row :: post)) by (assumption || lia).
  cbn zeta. cbn [ColumnFamily.rowback].
  rewrite (last_slot_iff s k stride_k).
  destruct (Nat.eqb_spec k (S (0 + List.length pre))); [lia|].
  rewrite (not_flat_row row Hnested).
  unfold bind. cbn [throw thrown after trace]. now rewrite app_nil_r.
Qed.

End Halts.

(** ** The further properties at work *)

Section MoreWitnesses.
Import Scenario.
#[local] Existing Instance cassandra_0_7.

Lemma host_port_reads_back_witness :
  Address.colon_free "localhost" = true /\
  Address.colon_free "9160" = true /\
  Address.host_port "localhost:9160" = ("localhost", Some "9160") /\
  Address.host_port "localhost" = ("localhost", None).
Proof.
  assert (H1 : Address.colon_free "localhost" = true) by reflexivity.
  assert (H2 : Address.colon_free "9160" = true) by reflexivity.
  split; [exact H1|]. split; [exact H2|].
  exact (host_port_reads_back "localhost" "9160" H1 H2).
Defined.




Lemma connect_then_selects_keyspace_witness :
  let connected :=
    Client.connect session [Data (JStr "node_cassandra_test")] in
  let r := Client.on_connect (after (fst connected)) None (snd connected) in
  "node_cassandra_test" <> "" /\
  trace r = [Remote (describe_keyspace (Data (JStr "node_cassandra_test")))] /\
  Client.ready (after r) = true /\
  Client.queue (after r) = [].
Proof.
  cbn zeta.
  assert (H1 : "node_cassandra_test" <> "") by discriminate.
  split; [exact H1|].
  destruct (connect_then_selects_keyspace session "node_cassandra_test" H1)
    as [_ [_ [_ [Ht [_ [Hr [Hq _]]]]]]].
  split; [exact Ht|]. split; [exact Hr|exact Hq].
Defined.

Lemma login_gates_readiness_witness :
  let credential := Data (literal [("username", JStr "u")]) in
  let connected :=
    Client.connect session [Data (JStr "node_cassandra_test"); credential] in
  let waiting := Client.on_connect (after (fst connected)) None (snd connected) in
  "node_cassandra_test" <> "" /\
  arg_truthy credential = true /\
  trace waiting = [Remote (login credential)] /\
  Client.ready (after waiting) = false /\
  trace (Client.on_login (after waiting) (Success tt)) =
    [Remote (describe_keyspace (Data (JStr "node_cassandra_test")))].
Proof.
  cbn zeta.
  assert (H1 : "node_cassandra_test" <> "") by discriminate.
  assert (H2 : arg_truthy (Data (literal [("username", JStr "u")])) = true)
    by reflexivity.
  split; [exact H1|]. split; [exact H2|].
  destruct (login_gates_readiness session "node_cassandra_test"
              (Data (literal [("username", JStr "u")])) "refused" H1 H2)
    as [Ht [_ [Hr [_ [_ [_ [_ [Ha _]]]]]]]].
  split; [exact Ht|]. split; [exact Hr|exact Ha].
Defined.

Lemma schema_event_binds_every_handle_witness :
  let s :=
    {| Session.client := described;
       Session.handles :=
         [ColumnFamily.with_queue (ColumnFamily.new "Standard" None) [a_get];
          ColumnFamily.new "Super" None] |} in
  let r := Session.on_set_keyspace 0 s (Success tt) in
  Client.column_families_ (Session.client s) = Some both /\
  Forall (fun h => lookup both (ColumnFamily.name h) <> None)
         (Session.handles s) /\
  thrown r = None /\
  Session.handles (after r) = [handle; super_handle].
Proof.
  cbn zeta.
  set (s := {| Session.client := described;
               Session.handles :=
                 [ColumnFamily.with_queue (ColumnFamily.new "Standard" None)
                    [a_get];
                  ColumnFamily.new "Super" None] |}).
  assert (H1 : Client.column_families_ (Session.client s) = Some both)
    by reflexivity.
  assert (H2 : Forall (fun h => lookup both (ColumnFamily.name h) <> None)
                 (Session.handles s)).
  { repeat constructor; discriminate. }
  assert (H3 : thrown (Session.on_set_keyspace 0 s (Success tt)) = None)
    by reflexivity.
  split; [exact H1|]. split; [exact H2|]. split; [exact H3|].
  exact (proj1 (schema_event_binds_every_handle 0 s both H1 H2 H3)).
Defined.

Lemma unheard_missing_table_ends_the_event_witness :
  let missing := ColumnFamily.new "Missing" None in
  let later := ColumnFamily.new "Standard" (Some 1000) in
  let s :=
    {| Session.client := deaf;
       Session.handles := [ColumnFamily.new "Standard" None; missing; later] |} in
  let r := Session.on_set_keyspace 0 s (Success tt) in
  Client.error_listener deaf = false /\
  lookup schema (ColumnFamily.name missing) = None /\
  thrown r = Some (Unhandled "Column Family Missing does not exist.") /\
  Session.handles (after r) = [handle; missing; later].
Proof.
  cbn zeta.
  set (missing := ColumnFamily.new "Missing" None).
  set (later := ColumnFamily.new "Standard" (Some 1000)).
  set (s := {| Session.client := deaf;
               Session.handles :=
                 [ColumnFamily.new "Standard" None; missing; later] |}).
  assert (H1 : Client.column_families_ (Session.client s) = Some schema)
    by reflexivity.
  assert (H2 : Session.handles s =
               ([ColumnFamily.new "Standard" None] ++ missing :: [later])%list)
    by reflexivity.
  assert (H3 : Client.error_listener (Session.client s) = false)
    by reflexivity.
  assert (H4 : thrown (Session.listeners 0 (Session.client s) (Some schema)
                         [ColumnFamily.new "Standard" None]) = None)
    by reflexivity.
  assert (H5 : lookup schema (ColumnFamily.name missing) = None)
    by reflexivity.
  split; [exact H3|]. split; [exact H5|].
  destruct (unheard_missing_table_ends_the_event 0 s schema
              [ColumnFamily.new "Standard" None] [later] missing
              H1 H2 H3 H4 H5) as [He [Hh _]].
  split; [exact He|exact Hh].
Defined.

Lemma thrown_call_leaves_the_rest_queued_witness :
  let self :=
    ColumnFamily.with_queue handle [a_get; a_bad_enumerate; a_set] in
  let r := ColumnFamily.dispatch session 0 self in
  ColumnFamily.ready self = true /\
  thrown (calls session 0 handle [a_get]) = None /\
  thrown (ColumnFamily.apply session 0 (fst a_bad_enumerate) handle
            (snd a_bad_enumerate)) = Some TypeError /\
  thrown r = Some TypeError /\
  ColumnFamily.ready (after r) = true /\
  ColumnFamily.queue (after r) = [a_set].
Proof.
  cbn zeta.
  set (self := ColumnFamily.with_queue handle [a_get; a_bad_enumerate; a_set]).
  assert (H1 : ColumnFamily.ready self = true) by reflexivity.
  assert (H2 : ColumnFamily.queue self =
               ([a_get] ++ a_bad_enumerate :: [a_set])%list) by reflexivity.
  assert (H3 : thrown (calls session 0 (ColumnFamily.with_queue self [])
                         [a_get]) = None) by reflexivity.
  assert (H4 : thrown (ColumnFamily.apply session 0 (fst a_bad_enumerate)
                         (ColumnFamily.with_queue self [])
                         (snd a_bad_enumerate)) = Some TypeError)
    by reflexivity.
  split; [exact H1|]. split; [exact H3|]. split; [exact H4|].
  destruct (thrown_call_leaves_the_rest_queued session 0 self [a_get] [a_set]
              (fst a_bad_enumerate) (snd a_bad_enumerate) TypeError
              H1 H2 H3 H4) as [He [Hr [Hq _]]].
  split; [exact He|]. split; [exact Hr|exact Hq].
Defined.

Lemma set_stamps_every_column_alike_witness :
  let args :=
    [Data (JStr "row1"); Data (literal [("a", JNum 1); ("b", JNum 2)]);
     Data (literal [("ttl", JNum 60)])] in
  ColumnFamily.ready handle = true /\
  safe_integer (1000 * ColumnFamily.timestampMultiplier handle) = true /\
  exists ts,
    Forall (fun col => timestamp col = ts /\ ttl col = JNum 60)
           (flat_map columns_in
              (written (trace (ColumnFamily.set session 1000 handle args)))) /\
    ts = 1000 * ColumnFamily.timestampMultiplier handle.
Proof.
  cbn zeta.
  assert (H1 : ColumnFamily.ready handle = true) by reflexivity.
  assert (H2 : safe_integer (1000 * ColumnFamily.timestampMultiplier handle)
               = true) by reflexivity.
  split; [exact H1|]. split; [exact H2|].
  destruct (set_stamps_every_column_alike session 1000 handle
              [Data (JStr "row1");
               Data (literal [("a", JNum 1); ("b", JNum 2)]);
               Data (literal [("ttl", JNum 60)])] H1) as [ts [Hall Hts]].
  exists ts. split; [exact Hall|exact (Hts H2)].
Defined.



Lemma row_error_halts_the_scan_witness :
  let w := refusing_row2 three_rows in
  let row2 := {| key := "row2"; ks_columns := [a_column "a" "2"] |} in
  ColumnFamily.range w 0
    {| Thrift.start_key := ""; end_key := ""; kr_count := JNum 5 |} =
    Success three_rows /\
  ColumnFamily.on_row w (key row2) (row_columns row2) =
    ColumnFamily.Continue (JStr "stop") /\
  truthy (JStr "stop") = true /\
  ColumnFamily.get_range_slices_callback w (the_scan 5) 1 0 "" =
  out ColumnFamily.Over
      [delivery "callback" {| key := "row1"; ks_columns := [a_column "a" "1"] |};
       delivery "callback" row2;
       Invoke "errback" [JStr "stop"]].
Proof.
  cbn zeta.
  set (w := refusing_row2 three_rows).
  set (row2 := {| key := "row2"; ks_columns := [a_column "a" "2"] |}).
  assert (H1 : ColumnFamily.stride (the_scan 5) = JNum (Z.of_nat 5))
    by reflexivity.
  assert (H2 : ColumnFamily.callback (the_scan 5) = Func "callback")
    by reflexivity.
  assert (H3 : ColumnFamily.range w 0
                 {| Thrift.start_key := ""; end_key := "";
                    kr_count := ColumnFamily.stride (the_scan 5) |} =
               Success
                 (one_row ++
                  row2 :: [{| key := "row3";
                              ks_columns := [a_column "a" "3"] |}])%list)
    by reflexivity.
  assert (H4 : Forall (passes w) one_row).
  { constructor; [|constructor]. split; [reflexivity|].
    exists JUndefined. split; reflexivity. }
  assert (H5 : (S (List.length one_row) < 5)%nat) by (cbn; lia).
  assert (H6 : ColumnFamily.errback (the_scan 5) = Func "errback")
    by reflexivity.
  assert (H7 : flat_row row2 = true) by reflexivity.
  assert (H8 : ColumnFamily.on_row w (key row2) (row_columns row2) =
               ColumnFamily.Continue (JStr "stop")) by reflexivity.
  assert (H9 : truthy (JStr "stop") = true) by reflexivity.
  split; [exact H3|]. split; [exact H8|]. split; [exact H9|].
  exact (row_error_halts_the_scan w (the_scan 5) 5 "callback" H1 H2
           0%nat "" one_row _ row2 0%nat H3 H4 H5
           "errback" (JStr "stop") H6 H7 H8 H9).
Defined.

Lemma super_column_row_throws_witness :
  let w := acknowledging mixed_rows in
  ColumnFamily.range w 0
    {| Thrift.start_key := ""; end_key := ""; kr_count := JNum 5 |} =
    Success mixed_rows /\
  flat_row nested_row = false /\
  ColumnFamily.get_range_slices_callback w (the_scan 5) 1 0 "" =
  {| after := ColumnFamily.Over;
     trace := map (delivery "callback") one_row;
     thrown := Some TypeError |}.
Proof.
  cbn zeta.
  set (w := acknowledging mixed_rows).
  assert (H1 : ColumnFamily.stride (the_scan 5) = JNum (Z.of_nat 5))
    by reflexivity.
  assert (H2 : ColumnFamily.callback (the_scan 5) = Func "callback")
    by reflexivity.
  assert (H3 : ColumnFamily.range w 0
                 {| Thrift.start_key := ""; end_key := "";
                    kr_count := ColumnFamily.stride (the_scan 5) |} =
               Success (one_row ++ nested_row :: [])%list)
    by reflexivity.
  assert (H4 : Forall (passes w) one_row).
  { constructor; [|constructor]. split; [reflexivity|].
    exists JUndefined. split; reflexivity. }
  assert (H5 : (S (List.length one_row) < 5)%nat) by (cbn; lia).
  assert (H6 : flat_row nested_row = false) by reflexivity.
  split; [exact H3|]. split; [exact H6|].
  exact (super_column_row_throws w (the_scan 5) 5 "callback" H1 H2
           0%nat "" one_row [] nested_row 0%nat H3 H4 H5 H6).
Defined.


Lemma enumerate_ends_at_most_once_witness :
  let w := acknowledging three_rows in
  let r := ColumnFamily.run_enumerate w 4 handle (scan_args 2) in
  (forall s, ColumnFamily.scan_of handle (scan_args 2) = Some s ->
             exists k, ColumnFamily.stride s = JNum k) /\
  exists steps ending,
    trace r = (steps ++ ending)%list /\
    forallb scan_step steps = true /\
    closing ending /\
    (after r = ColumnFamily.Pending -> ending = []).
Proof.
  cbn zeta.
  assert (H1 : forall s,
             ColumnFamily.scan_of handle (scan_args 2) = Some s ->
             exists k, ColumnFamily.stride s = JNum k).
  { intros s Hs. exists 2.
    change (Some (the_scan 2) = Some s) in Hs.
    injection Hs as <-. reflexivity. }
  split; [exact H1|].
  exact (enumerate_ends_at_most_once (acknowledging three_rows) 4 handle
           (scan_args 2) H1).
Defined.

End MoreWitnesses.
